(** * wagtail-graphql: schema registration and query-root resolvers

    A shallow embedding of [wagtail_graphql/actions.py] (the registration
    driver and the per-kind type builders) and of
    [wagtail_graphql/types/core.py] (the polymorphic resolver and the page
    query mixin), together with the properties of the written specification
    that concern them.

    Python's global [registry], the database tables and the list of schema
    types created by [type(...)] form one explicit [World]; code that mutates
    them or raises is written in a small state-and-exception monad. *)

From Stdlib Require Import ZArith String Ascii List.
From stdpp Require Import base option mapset gmap strings list sorting pretty.

Local Open Scope string_scope.
Local Open Scope list_scope.

Set Warnings "-clear-no-such-hyp".

(** ** Python strings *)

(** [s.rstrip(c)] for a one-character argument: drops every trailing [c]. *)
Fixpoint rstrip (c : ascii) (s : string) : string :=
  match s with
  | EmptyString => EmptyString
  | String a s' =>
      match rstrip c s' with
      | EmptyString => if decide (a = c) then EmptyString else String a EmptyString
      | r => String a r
      end
  end.

(** [s.replace(c, '')] for a one-character [c]: drops every [c]. *)
Fixpoint remove_char (c : ascii) (s : string) : string :=
  match s with
  | EmptyString => EmptyString
  | String a s' => if decide (a = c) then remove_char c s' else String a (remove_char c s')
  end.

(** [s[n:]] *)
Definition string_drop (n : nat) (s : string) : string :=
  substring n (String.length s - n) s.

Definition slash : ascii := "/"%char.
Definition underscore : ascii := "_"%char.

(** ** Model classes, as the driver sees them *)

(** One entry of [cls._meta.fields].  [stream_block] is [Some blocks] exactly
    when the field is a [StreamField]; [blocks] lists
    [field.stream_block.child_blocks.items()] as (name, block kind). *)
Record Field := {
  field_name : string;
  stream_block : option (list (string * string))
}.

Global Instance Field_eq_dec : EqDecision Field.
Proof. solve_decision. Defined.

Global Instance Field_countable : Countable Field.
Proof.
  refine (inj_countable' (λ f, (field_name f, stream_block f))
                         (λ t, Build_Field t.1 t.2) _).
  by intros [].
Defined.

(** A content-model class.  Python compares and hashes classes by identity;
    [cls_module] and [cls_name] ([__module__], [__name__]) identify the class,
    the three flags are the answers of [issubclass] against the wagtail base
    classes, [verbose_name] and [meta_fields] are [cls._meta.verbose_name]
    and [cls._meta.fields]. *)
Record ModelClass := {
  cls_module : string;
  cls_name : string;
  sub_AbstractForm : bool;
  sub_wagtailPage : bool;
  sub_BaseSetting : bool;
  verbose_name : string;
  meta_fields : list Field
}.

Global Instance ModelClass_eq_dec : EqDecision ModelClass.
Proof. solve_decision. Defined.

Global Instance ModelClass_countable : Countable ModelClass.
Proof.
  refine (inj_countable'
            (λ c, (cls_module c, cls_name c, sub_AbstractForm c, sub_wagtailPage c,
                   sub_BaseSetting c, verbose_name c, meta_fields c))
            (λ t, Build_ModelClass t.1.1.1.1.1.1 t.1.1.1.1.1.2 t.1.1.1.1.2
                                   t.1.1.1.2 t.1.1.2 t.1.2 t.2) _).
  by intros [].
Defined.

(** ** Database rows *)

(** A row of django's content-type table; [model_class] is the result of
    [ContentType.model_class()], [None] when the model is gone. *)
Record ContentType := {
  app_label : string;
  model_name : string;
  model_class : option ModelClass
}.

(** A row of the page table (treebeard materialised [path] and [depth]). *)
Record Page := {
  page_id : Z;
  url_path : string;
  path : string;
  depth : Z;
  live : bool;
  show_in_menus : bool;
  content_type : ContentType
}.

Global Instance ContentType_eq_dec : EqDecision ContentType.
Proof. solve_decision. Defined.

Global Instance Page_eq_dec : EqDecision Page.
Proof. solve_decision. Defined.

Record User := {
  username : string;
  is_superuser : bool
}.

(** [info.context]: the request, with its user and the id of its site. *)
Record Request := {
  user : User;
  site : option Z
}.

(** A bound django form, as the mutation consumes it: the answer of
    [is_valid()] and [errors.items()] in reported order. *)
Record Form := {
  is_valid : bool;
  errors : list (string * list string)
}.

(** The opaque [values] argument of a form mutation ([GenericScalar]), kept
    as its JSON text. *)
Inductive GenericScalar :=
| GenericValue (json : string).

(** ** Synthesized schema types *)

Inductive Interface := PageInterface | Settings.

Inductive GrapheneBase := DjangoObjectType | Mutation.

(** The inner [class Meta] of the construction parameters. *)
Record Meta := {
  model : ModelClass;
  interfaces : list Interface
}.

(** Modelled from the spec: [types/streamfield.py] is not among the sources.
    [block_handler(block, app, prefix)] builds the per-block resolver; it is
    kept as a token of its arguments. *)
Inductive BlockHandler :=
| block_handler (block : string) (app prefix : string).

(** The values stored in the construction parameters and in the mutation's
    class dictionary.  The two stream entries are the pair returned by
    [stream_field_handler(stream_field_name, field_name, handlers)]
    (modelled from the spec, see [BlockHandler]); [MutateFn] is the closure
    [mutate], which captures [_node] and [url_prefix]. *)
Inductive Attr :=
| StreamFieldDescriptor (stream_field_name field_name : string)
                        (handlers : list (string * BlockHandler))
| StreamFieldResolver (stream_field_name field_name : string)
                      (handlers : list (string * BlockHandler))
| FormFieldList
| FormFieldsResolver
| ArgumentsClass
| MutateFn (_node url_prefix : string)
| GrapheneString
| FormErrorList.

(** [dict_params].  The ['Meta'] entry is held apart from the other entries:
    django reserves the attribute name [Meta] for the model options, so no
    model field can replace it. *)
Record DictParams := {
  dp_Meta : option Meta;
  dp_entries : gmap string Attr
}.

(** The class object returned by [type(name, (base,), dict_params)]. *)
Record SynthType := {
  tp_name : string;
  tp_base : GrapheneBase;
  tp_dict : DictParams
}.

Definition tp_model (tp : SynthType) : option ModelClass :=
  model <$> dp_Meta (tp_dict tp).

Definition tp_interfaces (tp : SynthType) : list Interface :=
  default [] (interfaces <$> dp_Meta (tp_dict tp)).

(** ** The registry *)

(** Modelled from the spec: [registry.py] is not among the sources.  The
    process-wide registry has five buckets, the by-name index of the snippets
    and the set of lower-cased class names to prefetch; every insertion
    overwrites. *)
Record Registry := {
  pages : gmap ModelClass SynthType;
  forms : gmap string SynthType;
  settings : gmap string ModelClass;
  snippets : gmap ModelClass SynthType;
  snippets_by_name : gmap string SynthType;
  django : gmap string SynthType;
  page_prefetch_fields : gset string
}.

Definition empty_registry : Registry :=
  {| pages := ∅; forms := ∅; settings := ∅; snippets := ∅;
     snippets_by_name := ∅; django := ∅; page_prefetch_fields := ∅ |}.

Definition set_pages (f : gmap ModelClass SynthType → gmap ModelClass SynthType)
    (r : Registry) : Registry :=
  {| pages := f (pages r); forms := forms r; settings := settings r;
     snippets := snippets r; snippets_by_name := snippets_by_name r;
     django := django r; page_prefetch_fields := page_prefetch_fields r |}.

Definition set_forms (f : gmap string SynthType → gmap string SynthType)
    (r : Registry) : Registry :=
  {| pages := pages r; forms := f (forms r); settings := settings r;
     snippets := snippets r; snippets_by_name := snippets_by_name r;
     django := django r; page_prefetch_fields := page_prefetch_fields r |}.

Definition set_settings (f : gmap string ModelClass → gmap string ModelClass)
    (r : Registry) : Registry :=
  {| pages := pages r; forms := forms r; settings := f (settings r);
     snippets := snippets r; snippets_by_name := snippets_by_name r;
     django := django r; page_prefetch_fields := page_prefetch_fields r |}.

Definition set_snippets (f : gmap ModelClass SynthType → gmap ModelClass SynthType)
    (r : Registry) : Registry :=
  {| pages := pages r; forms := forms r; settings := settings r;
     snippets := f (snippets r); snippets_by_name := snippets_by_name r;
     django := django r; page_prefetch_fields := page_prefetch_fields r |}.

Definition set_snippets_by_name (f : gmap string SynthType → gmap string SynthType)
    (r : Registry) : Registry :=
  {| pages := pages r; forms := forms r; settings := settings r;
     snippets := snippets r; snippets_by_name := f (snippets_by_name r);
     django := django r; page_prefetch_fields := page_prefetch_fields r |}.

Definition set_django (f : gmap string SynthType → gmap string SynthType)
    (r : Registry) : Registry :=
  {| pages := pages r; forms := forms r; settings := settings r;
     snippets := snippets r; snippets_by_name := snippets_by_name r;
     django := f (django r); page_prefetch_fields := page_prefetch_fields r |}.

Definition set_page_prefetch_fields (f : gset string → gset string)
    (r : Registry) : Registry :=
  {| pages := pages r; forms := forms r; settings := settings r;
     snippets := snippets r; snippets_by_name := snippets_by_name r;
     django := django r; page_prefetch_fields := f (page_prefetch_fields r) |}.

(** ** The world and the monad *)

(** Everything the code reads or mutates: the global [registry], wagtail's
    registered snippet models ([get_snippet_models()]), the content-type and
    page tables, the form submissions stored by
    [process_form_submission], and the class objects created so far by
    [type(...)], oldest first. *)
Record World := {
  registry : Registry;
  snippet_models : list ModelClass;
  content_types : list ContentType;
  page_table : list Page;
  form_submissions : list (Page * Form);
  synthesized : list SynthType
}.

Definition set_registry (f : Registry → Registry) (w : World) : World :=
  {| registry := f (registry w); snippet_models := snippet_models w;
     content_types := content_types w; page_table := page_table w;
     form_submissions := form_submissions w; synthesized := synthesized w |}.

Definition set_form_submissions (f : list (Page * Form) → list (Page * Form))
    (w : World) : World :=
  {| registry := registry w; snippet_models := snippet_models w;
     content_types := content_types w; page_table := page_table w;
     form_submissions := f (form_submissions w); synthesized := synthesized w |}.

Definition set_synthesized (f : list SynthType → list SynthType) (w : World) : World :=
  {| registry := registry w; snippet_models := snippet_models w;
     content_types := content_types w; page_table := page_table w;
     form_submissions := form_submissions w; synthesized := f (synthesized w) |}.

(** The exceptions the code can raise.  [FormatError] stands for whatever
    [str.format] raises on a template it cannot fill. *)
Inductive Exn :=
| KeyError
| ValueError (msg : string)
| AttributeError
| FormatError.

Inductive Res (A : Type) :=
| Ok (a : A)
| Raise (e : Exn).

Arguments Ok {A} a.
Arguments Raise {A} e.

(** A computation returns or raises, and leaves a world behind either way. *)
Definition M (A : Type) : Type := World → Res A * World.

Definition ret {A} (a : A) : M A := λ w, (Ok a, w).

Definition bind {A B} (k : A → M B) (m : M A) : M B :=
  λ w, match m w with
       | (Ok a, w') => k a w'
       | (Raise e, w') => (Raise e, w')
       end.

Global Instance M_ret : MRet M := @ret.
Global Instance M_bind : MBind M := @bind.

Definition raise {A} (e : Exn) : M A := λ w, (Raise e, w).

Definition get_world : M World := λ w, (Ok w, w).

Definition modify (f : World → World) : M unit := λ w, (Ok tt, f w).

Definition modify_registry (f : Registry → Registry) : M unit :=
  modify (set_registry f).

(** [d[k]] on a dictionary: the value, or [KeyError]. *)
Definition getitem {K V} `{Countable K} (d : gmap K V) (k : K) : M V :=
  match d !! k with
  | Some v => ret v
  | None => raise KeyError
  end.

(** [s.add(x)] on a set. *)
Definition set_add {K} `{Countable K} (x : K) (s : gset K) : gset K :=
  let (m) := s in Mapset (<[x := ()]> m).

(** [type(name, (base,), dict_params)]: a new class object. *)
Definition new_type (name : string) (base : GrapheneBase) (dict_params : DictParams)
    : M SynthType :=
  let tp := {| tp_name := name; tp_base := base; tp_dict := dict_params |} in
  modify (set_synthesized (λ l, l ++ [tp]));;
  ret tp.

(** Python's [for x in xs: body], threading the loop-carried value. *)
Fixpoint for_each {A S} (body : S → A → M S) (s : S) (xs : list A) : M S :=
  match xs with
  | [] => ret s
  | x :: xs' => s' ← body s x; for_each body s' xs'
  end.

(** The [GRAPHQL_API] settings the top-level driver reads: the apps to
    register and the optional [PREFIX], one template or one per app. *)
Inductive PrefixSetting :=
| PrefixString (prefix : string)
| PrefixMap (prefixes : gmap string string).

Record GraphqlSettings := {
  APPS : list string;
  PREFIX : option PrefixSetting
}.

(** ** External collaborators *)

(** The library functions and the configuration the two modules call.  They
    are parameters of the development: every theorem holds whatever they
    compute. *)
Class Externals := {
  (** [string.capwords(s, sep)] *)
  capwords : string → option string → string;
  (** [prefix.format(app=a, cls=c)]; [None] when the template cannot be
      filled and [format] raises *)
  str_format : string → string → string → option string;
  (** [s.lower()] *)
  lower : string → string;
  (** django's [capfirst] *)
  capfirst : string → string;
  (** wagtail's [camelcase_to_underscore] *)
  camelcase_to_underscore : string → string;
  (** the decision of the permission filter for one request and one page *)
  page_permitted : Request → Page → bool;
  (** [instance.get_form(values, None, page=instance, user=user)]; [None]
      when the instance is not a form page and has no such method *)
  get_form : Page → GenericScalar → User → option Form;
  (** [settings.URL_PREFIX] *)
  URL_PREFIX : string;
  (** the class [wagtail.core.models.Page] itself *)
  wagtailPage : ModelClass
}.

Section Actions.
Context `{Externals}.

(** *** [actions.py] *)

(** The body of the loop of [_add_streamfields] for one field. *)
Definition add_streamfield (node app prefix : string) (dict_params : DictParams)
    (field : Field) : DictParams :=
  match stream_block field with
  | Some blocks =>
      let field_name := field_name field in
      let stream_field_name :=
        node +:+ remove_char underscore (capwords field_name (Some "_")) in
      let handlers :=
        (λ nb : string * string, (nb.1, block_handler nb.2 app prefix)) <$> blocks in
      let f := StreamFieldDescriptor stream_field_name field_name handlers in
      let resolve := StreamFieldResolver stream_field_name field_name handlers in
      {| dp_Meta := dp_Meta dict_params;
         dp_entries := <["resolve_" +:+ field_name := resolve]>
                         (<[field_name := f]> (dp_entries dict_params)) |}
  | None => dict_params
  end.

Definition _add_streamfields (cls : ModelClass) (node : string)
    (dict_params : DictParams) (app prefix : string) : DictParams :=
  foldl (add_streamfield node app prefix) dict_params (meta_fields cls).

(** [dict_params['Meta'].interfaces = ifaces] *)
Definition set_interfaces (ifaces : list Interface) (dict_params : DictParams)
    : DictParams :=
  {| dp_Meta := (λ m, {| model := model m; interfaces := ifaces |}) <$> dp_Meta dict_params;
     dp_entries := dp_entries dict_params |}.

(** [dict_params[key] = value] *)
Definition set_entry (key : string) (value : Attr) (dict_params : DictParams)
    : DictParams :=
  {| dp_Meta := dp_Meta dict_params;
     dp_entries := <[key := value]> (dp_entries dict_params) |}.

Definition _add_form (cls : ModelClass) (node : string) (dict_params : DictParams)
    (url_prefix : string) : M SynthType :=
  modify_registry (set_page_prefetch_fields (set_add (lower (cls_name cls))));;
  let dict_params := set_interfaces [PageInterface] dict_params in
  let dict_params := set_entry "form_fields" FormFieldList dict_params in
  let dict_params := set_entry "resolve_form_fields" FormFieldsResolver dict_params in
  tp ← new_type node DjangoObjectType dict_params;
  modify_registry (set_pages (λ d, <[cls := tp]> d));;
  let _node := node in
  let dict_params :=
    {| dp_Meta := None;
       dp_entries := <["errors" := FormErrorList]>
                       (<["result" := GrapheneString]>
                          (<["mutate" := MutateFn _node url_prefix]>
                             (<["Arguments" := ArgumentsClass]> ∅))) |} in
  tp ← new_type (node +:+ "Mutation") Mutation dict_params;
  modify_registry (set_forms (λ d, <[node := tp]> d));;
  ret tp.

Definition _add_page (cls : ModelClass) (node : string) (dict_params : DictParams)
    : M SynthType :=
  modify_registry (set_page_prefetch_fields (set_add (lower (cls_name cls))));;
  let dict_params := set_interfaces [PageInterface] dict_params in
  tp ← new_type node DjangoObjectType dict_params;
  modify_registry (set_pages (λ d, <[cls := tp]> d));;
  ret tp.

Definition _add_setting (cls : ModelClass) (node : string) (dict_params : DictParams)
    : M SynthType :=
  let dict_params := set_interfaces [Settings] dict_params in
  tp ← new_type node DjangoObjectType dict_params;
  modify_registry (set_settings (λ d, <[capfirst (verbose_name cls) := cls]> d));;
  ret tp.

Definition _add_snippet (cls : ModelClass) (node : string) (dict_params : DictParams)
    : M SynthType :=
  tp ← new_type node DjangoObjectType dict_params;
  modify_registry (set_snippets (λ d, <[cls := tp]> d));;
  modify_registry (set_snippets_by_name (λ d, <[node := tp]> d));;
  ret tp.

Definition _add_django_model (_cls : ModelClass) (node : string)
    (dict_params : DictParams) : M SynthType :=
  tp ← new_type node DjangoObjectType dict_params;
  modify_registry (set_django (λ d, <[node := tp]> d));;
  ret tp.

(** The node name [_register_model] derives for a class, when the prefix
    template can be filled. *)
Definition node_name (app prefix : string) (cls : ModelClass) : option string :=
  (λ prefix, prefix +:+ cls_name cls) <$>
    str_format prefix (capwords app None) (cls_name cls).

Definition _register_model (registered : gset ModelClass) (cls : ModelClass)
    (snippet : bool) (app prefix url_prefix : string) : M (gset ModelClass) :=
  if decide (cls ∈ registered) then ret registered
  else
    match str_format prefix (capwords app None) (cls_name cls) with
    | None => raise FormatError
    | Some prefix =>
        let node := prefix +:+ cls_name cls in
        let Meta := {| model := cls; interfaces := [] |} in
        let dict_params := {| dp_Meta := Some Meta; dp_entries := ∅ |} in
        let dict_params := _add_streamfields cls node dict_params app prefix in
        (if snippet then _add_snippet cls node dict_params
         else if sub_AbstractForm cls then _add_form cls node dict_params url_prefix
         else if sub_wagtailPage cls then _add_page cls node dict_params
         else if sub_BaseSetting cls then _add_setting cls node dict_params
         else _add_django_model cls node dict_params);;
        ret (set_add cls registered)
    end.

(** The list [add_app] walks: the snippet models, then the model classes of
    the app's content types, without the [None] entries. *)
Definition to_register (app : string) (w : World) : list ModelClass :=
  let snippets := snippet_models w in
  let models :=
    model_class <$> filter (λ mdl, app_label mdl = app) (content_types w) in
  omap id ((Some <$> snippets) ++ models).

Definition add_app (app prefix url_prefix : string) : M unit :=
  w ← get_world;
  let snippets := snippet_models w in
  let to_register := to_register app w in
  let registered : gset ModelClass := ∅ in
  for_each (λ registered cls,
              _register_model registered cls (bool_decide (cls ∈ snippets))
                              app prefix url_prefix)
           registered to_register;;
  ret tt.

(** The defaults of [add_app(app, prefix='{app}', url_prefix='')]. *)
Definition add_app_default (app : string) : M unit := add_app app "{app}" "".

(** [add_apps_with_settings]; [settings_registry] is the truth value of the
    settings registry of [types/settings.py]. *)
Definition add_apps_with_settings (settings_registry : bool) (settings : GraphqlSettings)
    (url_prefix : string) : M unit :=
  (if settings_registry then add_app_default "wagtail.contrib.settings" else mret tt);;
  for_each (λ _ app,
              let prefixes := default (PrefixMap ∅) (PREFIX settings) in
              let prefix :=
                match prefixes with
                | PrefixString prefixes => prefixes
                | PrefixMap prefixes => default "{app}" (prefixes !! app)
                end in
              add_app app prefix url_prefix)
           tt (APPS settings).

(** The prefix template [add_apps_with_settings] picks for an app. *)
Definition app_prefix (settings : GraphqlSettings) (app : string) : string :=
  match default (PrefixMap ∅) (PREFIX settings) with
  | PrefixString prefixes => prefixes
  | PrefixMap prefixes => default "{app}" (prefixes !! app)
  end.

(** [add_apps], for the [SETTINGS] of the settings module. *)
Definition add_apps (settings_registry : bool) (SETTINGS : GraphqlSettings) : M unit :=
  add_apps_with_settings settings_registry SETTINGS URL_PREFIX.

End Actions.

(** ** Querysets *)

(** A queryset over the page table: the rows it denotes, in order, and the
    relations joined by [select_related], in call order. *)
Record QuerySet := {
  rows : list Page;
  related : list string
}.

Definition qs_filter (P : Page → bool) (q : QuerySet) : QuerySet :=
  {| rows := List.filter P (rows q); related := related q |}.

Definition select_related (pf : string) (q : QuerySet) : QuerySet :=
  {| rows := rows q; related := related q ++ [pf] |}.

(** [.specific()] swaps every row for its most specific instance; the row
    itself is the same record. *)
Definition specific (q : QuerySet) : QuerySet := q.

Definition qs_live (q : QuerySet) : QuerySet := qs_filter live q.

Definition first (q : QuerySet) : option Page := head (rows q).

Definition all (q : QuerySet) : QuerySet := q.

Definition path_le (p q : Page) : Prop := String.leb (path p) (path q) = true.

Global Instance path_le_dec : RelDecision path_le.
Proof. intros p q. unfold path_le. apply _. Defined.

Definition order_by_path (q : QuerySet) : QuerySet :=
  {| rows := merge_sort path_le (rows q); related := related q |}.

(** wagtail's tree queries on the materialised path:
    [descendant_of_q] is [path__startswith=other.path & depth__gte=other.depth],
    without [other] itself unless [inclusive]; [child_of_q] adds
    [depth=other.depth + 1]. *)
Definition descendant_of_q (other : Page) (inclusive : bool) (p : Page) : bool :=
  String.prefix (path other) (path p) && (depth other <=? depth p)%Z
  && (inclusive || negb (page_id p =? page_id other)%Z).

Definition child_of_q (other : Page) (p : Page) : bool :=
  descendant_of_q other false p && (depth p =? depth other + 1)%Z.

Definition child_of (other : Page) (q : QuerySet) : QuerySet :=
  qs_filter (child_of_q other) q.

(** [wagtailPage.objects]: the page manager orders by [path]. *)
Definition objects (w : World) : QuerySet :=
  order_by_path {| rows := page_table w; related := [] |}.

(** *** GraphQL execution context *)

(** One entry of a selection set; fields and fragment spreads carry
    [name.value]. *)
Inductive Selection :=
| SelField (name : string)
| FragmentSpread (name : string)
| InlineFragment.

(** [ResolveInfo]: the request and
    [field_asts[0].selection_set.selections]. *)
Record ResolveInfo := {
  context : Request;
  selections : list Selection
}.

(** What [resolve_type] receives: a bare identifier or a loaded page. *)
Inductive Instance :=
| BareId (i : Z)
| Loaded (p : Page).

(** Modelled from the spec: [FormError] lives in [types/], which is not
    among the sources; it is the pair (field name, messages) that
    [FormError( *err)] fills positionally. *)
Record FormError := {
  error_name : string;
  error_messages : list string
}.

(** An instance of a registered mutation type, built by
    [registry.forms[_node](result=..., errors=...)]; a keyword that is not
    passed leaves its field unset. *)
Record MutationPayload := {
  payload_type : SynthType;
  result : string;
  result_errors : option (list FormError)
}.

(** The error entries a payload carries: none when [errors] is unset. *)
Definition reported_errors (payload : MutationPayload) : list FormError :=
  default [] (result_errors payload).

(** *** [class User(DjangoObjectType)] *)

(** The options a [DjangoObjectType] reads from its [Meta]. *)
Record ObjectTypeMeta := {
  ot_model_fields : list string;
  only_fields : list string;
  exclude_fields : list string
}.

(** graphene-django's field construction: a model field is skipped when
    [only_fields] is non-empty and misses it, or when [exclude_fields] names
    it. *)
Definition construct_fields (meta : ObjectTypeMeta) : list string :=
  List.filter
    (λ name,
       negb (negb (bool_decide (only_fields meta = [])) && negb (bool_decide (name ∈ only_fields meta)))
       && negb (bool_decide (name ∈ exclude_fields meta)))
    (ot_model_fields meta).

(** [class User: class Meta: model = wagtailUser; exclude_fields = ['password']],
    for the fields of django's user model. *)
Definition User_Meta (wagtailUser_fields : list string) : ObjectTypeMeta :=
  {| ot_model_fields := wagtailUser_fields;
     only_fields := [];
     exclude_fields := ["password"] |}.

Definition User_fields (wagtailUser_fields : list string) : list string :=
  construct_fields (User_Meta wagtailUser_fields).

Section Core.
Context `{Externals}.

(** Modelled from the spec: [permissions.py] is not among the sources.  The
    permission filter keeps the rows the request may see. *)
Definition with_page_permissions (request : Request) (q : QuerySet) : QuerySet :=
  qs_filter (page_permitted request) q.

(** *** [types/core.py] *)

(** [type(page)] of a specific page: the class of its content type, the
    base page class when that model is gone. *)
Definition specific_class (p : Page) : ModelClass :=
  default wagtailPage (model_class (content_type p)).

(** [PageInterface.resolve_content_type] *)
Definition resolve_content_type (self : Page) : M string :=
  match model_class (content_type self) with
  | Some cls => mret (app_label (content_type self) +:+ "." +:+ cls_name cls)
  | None => raise AttributeError
  end.

(** [PageInterface.resolve_url_path] and [PageLink.resolve_url_path] *)
Definition resolve_url_path (self : Page) : string :=
  let url :=
    if negb (String.prefix URL_PREFIX (url_path self)) then url_path self
    else string_drop (String.length URL_PREFIX) (url_path self) in
  rstrip slash url.

(** [PageInterface.resolve_type] *)
Definition resolve_type (instance : Instance) : M SynthType :=
  w ← get_world;
  match instance with
  | BareId i =>
      match first (specific (qs_filter (λ p, (page_id p =? i)%Z) (objects w))) with
      | Some p => getitem (pages (registry w)) (specific_class p)
      | None => raise KeyError
      end
  | Loaded p =>
      match model_class (content_type p) with
      | Some cls => getitem (pages (registry w)) cls
      | None => raise KeyError
      end
  end.

(** The requested names [resolve_pages] compares with the registry. *)
Definition selection_names (info : ResolveInfo) : gset string :=
  list_to_set
    (omap (λ f, match f with
                | SelField name | FragmentSpread name =>
                    Some (camelcase_to_underscore name)
                | InlineFragment => None
                end)
          (selections info)).

(** [PagesQueryMixin.resolve_pages] *)
Definition resolve_pages (info : ResolveInfo) (parent : option Z) : M QuerySet :=
  w ← get_world;
  let query := objects w in
  let selections := selection_names info in
  let query :=
    foldl (λ query pf, select_related pf query) query
          (elements (page_prefetch_fields (registry w) ∩ selections)) in
  query ← match parent with
          | Some parent =>
              let parent_page :=
                first (qs_filter (λ p, (page_id p =? parent)%Z) (objects w)) in
              match parent_page with
              | None => raise (ValueError ("Page id=" +:+ pretty parent +:+ " not found."))
              | Some parent_page => ret (child_of parent_page query)
              end
          | None => ret query
          end;
  ret (all (order_by_path (qs_live (with_page_permissions (context info) (specific query))))).

(** The [url_path] looked up for a [url] argument under a prefix. *)
Definition lookup_path (url_prefix url : string) : string :=
  url_prefix +:+ rstrip slash url +:+ "/".

(** [PagesQueryMixin.resolve_page] *)
Definition resolve_page (info : ResolveInfo) (id : option Z) (url : option string)
    : M (option Page) :=
  w ← get_world;
  let query := objects w in
  query ← match id, url with
          | Some id, _ => ret (qs_filter (λ p, (page_id p =? id)%Z) query)
          | None, Some url =>
              ret (qs_filter (λ p, bool_decide (url_path p = lookup_path URL_PREFIX url)) query)
          | None, None => raise (ValueError "One of 'id' or 'url' must be specified")
          end;
  let page :=
    first (qs_live (with_page_permissions (context info)
                      (specific (select_related "content_type" query)))) in
  match page with
  | None => ret None
  | Some page => ret (Some page)
  end.

(** [PagesQueryMixin.resolve_show_in_menus] *)
Definition resolve_show_in_menus (info : ResolveInfo) : M QuerySet :=
  w ← get_world;
  ret (order_by_path (qs_live (with_page_permissions (context info)
                                 (qs_filter show_in_menus (objects w))))).

(** [InfoQueryMixin.resolve_root] *)
Definition resolve_root (info : ResolveInfo) : option Z :=
  let user := user (context info) in
  if is_superuser user then site (context info) else None.

(** *** The form mutation synthesized by [_add_form] *)

(** [instance.process_form_submission(form)]: the external handler stores the
    submission. *)
Definition process_form_submission (instance : Page) (form : Form) : M unit :=
  modify (set_form_submissions (λ l, l ++ [(instance, form)])).

(** [registry.forms[_node]] *)
Definition registry_forms (_node : string) : M SynthType :=
  w ← get_world;
  getitem (forms (registry w)) _node.

(** The closure [mutate] of [_add_form], for the captured [_node] and
    [url_prefix]. *)
Definition mutate (_node url_prefix : string) (info : ResolveInfo) (url : string)
    (values : GenericScalar) : M MutationPayload :=
  w ← get_world;
  let query :=
    qs_filter (λ p, bool_decide (url_path p = lookup_path url_prefix url)) (objects w) in
  let instance :=
    first (qs_live (with_page_permissions (context info) (specific query))) in
  let user := user (context info) in
  match instance with
  | None => raise AttributeError
  | Some instance =>
      match get_form instance values user with
      | None => raise AttributeError
      | Some form =>
          if is_valid form then
            process_form_submission instance form;;
            tp ← registry_forms _node;
            ret {| payload_type := tp; result := "OK"; result_errors := None |}
          else
            tp ← registry_forms _node;
            ret {| payload_type := tp; result := "FAIL";
                   result_errors :=
                     Some ((λ err : string * list string,
                              {| error_name := err.1; error_messages := err.2 |})
                             <$> errors form) |}
      end
  end.

End Core.

(** ** The specification's view of a registration

    The definitions of this part follow the written specification, not the
    code: the kinds of model with their precedence, the buckets a class of
    each kind belongs to, and a reading of "the class appears in a bucket".
    The theorems compare the code with them. *)

Inductive Kind := Snippet | FormKind | PageKind | SettingKind | GenericRecord.

(** The precedence snippet > form > page > setting > generic record. *)
Definition classify (snippet : bool) (cls : ModelClass) : Kind :=
  if snippet then Snippet
  else if sub_AbstractForm cls then FormKind
  else if sub_wagtailPage cls then PageKind
  else if sub_BaseSetting cls then SettingKind
  else GenericRecord.

Global Instance Kind_eq_dec : EqDecision Kind.
Proof. solve_decision. Defined.

Inductive Bucket := Pages | Forms | SettingsBucket | Snippets | GenericRecords.

Global Instance Bucket_eq_dec : EqDecision Bucket.
Proof. solve_decision. Defined.

Definition all_buckets : list Bucket :=
  [Pages; Forms; SettingsBucket; Snippets; GenericRecords].

(** The buckets the builder of a kind writes the class into. *)
Definition expected_buckets (k : Kind) : list Bucket :=
  match k with
  | Snippet => [Snippets]
  | FormKind => [Pages; Forms]
  | PageKind => [Pages]
  | SettingKind => [SettingsBucket]
  | GenericRecord => [GenericRecords]
  end.

(** The number of schema types synthesized so far for a class: the class
    objects whose [Meta.model] is the class. *)
Definition registrations (cls : ModelClass) (w : World) : nat :=
  length (filter (λ tp, tp_model tp = Some cls) (synthesized w)).

Section Buckets.
Context `{Externals}.

(** A class appears in [pages] or [snippets] when it is a key there; in
    [forms] or [genericRecords] when its node name is a key there; in
    [settings] when its display name maps to it. *)
Definition appears_in (r : Registry) (node : option string) (cls : ModelClass)
    (b : Bucket) : bool :=
  match b with
  | Pages => bool_decide (is_Some (pages r !! cls))
  | Forms => bool_decide (is_Some (node ≫= λ n, forms r !! n))
  | SettingsBucket =>
      bool_decide (settings r !! capfirst (verbose_name cls) = Some cls)
  | Snippets => bool_decide (is_Some (snippets r !! cls))
  | GenericRecords => bool_decide (is_Some (node ≫= λ n, django r !! n))
  end.

Definition buckets_holding (r : Registry) (app prefix : string) (cls : ModelClass)
    : list Bucket :=
  List.filter (appears_in r (node_name app prefix cls) cls) all_buckets.

(** The registry writes of the builder of each kind, for the node type [tp]
    and, for a form, the mutation type [tpm]. *)
Definition registry_after (k : Kind) (cls : ModelClass) (node : string)
    (tp tpm : SynthType) (r : Registry) : Registry :=
  match k with
  | Snippet =>
      set_snippets_by_name (λ d, <[node := tp]> d) (set_snippets (λ d, <[cls := tp]> d) r)
  | FormKind =>
      set_forms (λ d, <[node := tpm]> d)
        (set_pages (λ d, <[cls := tp]> d)
           (set_page_prefetch_fields (λ s, {[lower (cls_name cls)]} ∪ s) r))
  | PageKind =>
      set_pages (λ d, <[cls := tp]> d)
        (set_page_prefetch_fields (λ s, {[lower (cls_name cls)]} ∪ s) r)
  | SettingKind =>
      set_settings (λ d, <[capfirst (verbose_name cls) := cls]> d) r
  | GenericRecord => set_django (λ d, <[node := tp]> d) r
  end.

(** The interface attached to the node type of each kind. *)
Definition interfaces_of (k : Kind) : list Interface :=
  match k with
  | FormKind | PageKind => [PageInterface]
  | SettingKind => [Settings]
  | Snippet | GenericRecord => []
  end.

(** The node type of a class of kind [k]: named by the node name, bound to
    the class, with the interface of the kind, the stream-field entries and,
    for a form, the [form_fields] list and its resolver. *)
Definition node_type (k : Kind) (cls : ModelClass) (node app pfx : string) : SynthType :=
  let streams :=
    _add_streamfields cls node {| dp_Meta := None; dp_entries := ∅ |} app pfx in
  {| tp_name := node;
     tp_base := DjangoObjectType;
     tp_dict :=
       {| dp_Meta := Some {| model := cls; interfaces := interfaces_of k |};
          dp_entries :=
            match k with
            | FormKind =>
                <["resolve_form_fields" := FormFieldsResolver]>
                  (<["form_fields" := FormFieldList]> (dp_entries streams))
            | _ => dp_entries streams
            end |} |}.

(** The mutation type [<Node>Mutation] of a form. *)
Definition mutation_type (node url_prefix : string) : SynthType :=
  {| tp_name := node +:+ "Mutation";
     tp_base := Mutation;
     tp_dict :=
       {| dp_Meta := None;
          dp_entries :=
            <["errors" := FormErrorList]>
              (<["result" := GrapheneString]>
                 (<["mutate" := MutateFn node url_prefix]>
                    (<["Arguments" := ArgumentsClass]> ∅))) |} |}.

(** What the registry holds for a registered class of kind [k]: the node
    type [tp] under the class or the node name, the mutation type [tpm] of
    a form under the node name, the class itself under the display name of
    a setting. *)
Definition registered_entries (r : Registry) (k : Kind) (cls : ModelClass)
    (node : string) (tp tpm : SynthType) : Prop :=
  match k with
  | Snippet => snippets r !! cls = Some tp ∧ snippets_by_name r !! node = Some tp
  | FormKind => pages r !! cls = Some tp ∧ forms r !! node = Some tpm
  | PageKind => pages r !! cls = Some tp
  | SettingKind => settings r !! capfirst (verbose_name cls) = Some cls
  | GenericRecord => django r !! node = Some tp
  end.

(** What is left of a registration whatever is registered after it: the
    entries keyed by the class keep the node type, [forms] keeps the
    mutation type of the node name, and the display name of a setting and
    the node name of a generic record stay keys of their buckets. *)
Definition entries_kept (r : Registry) (k : Kind) (cls : ModelClass)
    (node : string) (tp tpm : SynthType) : Prop :=
  match k with
  | Snippet => snippets r !! cls = Some tp
  | FormKind => pages r !! cls = Some tp ∧ forms r !! node = Some tpm
  | PageKind => pages r !! cls = Some tp
  | SettingKind => is_Some (settings r !! capfirst (verbose_name cls))
  | GenericRecord => is_Some (django r !! node)
  end.

(** The class objects one registration creates. *)
Definition types_created (k : Kind) (cls : ModelClass) (node app pfx url_prefix : string)
    : list SynthType :=
  node_type k cls node app pfx ::
    match k with
    | FormKind => [mutation_type node url_prefix]
    | _ => []
    end.

End Buckets.

(** ** An ASCII instance of the collaborators

    Concrete versions of the library functions on ASCII text, used to run
    the code on sample data. *)

Definition is_upper (a : ascii) : bool :=
  let n := nat_of_ascii a in (65 <=? n)%nat && (n <=? 90)%nat.

Definition is_lower (a : ascii) : bool :=
  let n := nat_of_ascii a in (97 <=? n)%nat && (n <=? 122)%nat.

Definition to_lower (a : ascii) : ascii :=
  if is_upper a then ascii_of_nat (nat_of_ascii a + 32) else a.

Definition to_upper (a : ascii) : ascii :=
  if is_lower a then ascii_of_nat (nat_of_ascii a - 32) else a.

Fixpoint string_map (f : ascii → ascii) (s : string) : string :=
  match s with
  | EmptyString => EmptyString
  | String a s' => String (f a) (string_map f s')
  end.

Definition ascii_lower (s : string) : string := string_map to_lower s.

(** [s.capitalize()] *)
Definition capitalize (s : string) : string :=
  match s with
  | EmptyString => EmptyString
  | String a s' => String (to_upper a) (ascii_lower s')
  end.

(** [s.split(c)] for a one-character separator. *)
Fixpoint split_on (c : ascii) (s : string) : list string :=
  match s with
  | EmptyString => [EmptyString]
  | String a s' =>
      if decide (a = c) then EmptyString :: split_on c s'
      else match split_on c s' with
           | [] => [String a EmptyString]
           | w :: ws => String a w :: ws
           end
  end.

Fixpoint join (sep : string) (ws : list string) : string :=
  match ws with
  | [] => EmptyString
  | [w] => w
  | w :: ws' => w +:+ sep +:+ join sep ws'
  end.

Definition ascii_capwords (s : string) (sep : option string) : string :=
  match sep with
  | None =>
      join " " (capitalize <$>
                  List.filter (λ w, negb (bool_decide (w = EmptyString)))
                              (split_on " "%char s))
  | Some (String c EmptyString) => join (String c EmptyString) (capitalize <$> split_on c s)
  | Some _ => s
  end.

(** [template.format(app=a, cls=c)] for templates whose only replacement
    fields are [{app}] and [{cls}]. *)
Fixpoint fill_template (fuel : nat) (t a c : string) : option string :=
  match fuel with
  | O => None
  | S fuel =>
      match t with
      | EmptyString => Some EmptyString
      | String ch t' =>
          if String.prefix "{app}" t then
            (λ r, a +:+ r) <$> fill_template fuel (string_drop 5 t) a c
          else if String.prefix "{cls}" t then
            (λ r, c +:+ r) <$> fill_template fuel (string_drop 5 t) a c
          else if bool_decide (ch = "{"%char ∨ ch = "}"%char) then None
          else String ch <$> fill_template fuel t' a c
      end
  end.

Definition ascii_format (t a c : string) : option string :=
  fill_template (S (String.length t)) t a c.

Definition ascii_capfirst (s : string) : string :=
  match s with
  | EmptyString => EmptyString
  | String a s' => String (to_upper a) s'
  end.

Fixpoint lstrip (c : ascii) (s : string) : string :=
  match s with
  | EmptyString => EmptyString
  | String a s' => if decide (a = c) then lstrip c s' else s
  end.

(** The substitution of wagtail's [camelcase_to_underscore]: an underscore
    goes before a capital that follows a lower-case letter or that is
    followed by something other than a capital. *)
Fixpoint mark_capitals (after_lower : bool) (s : string) : string :=
  match s with
  | EmptyString => EmptyString
  | String a s' =>
      let before_other :=
        match s' with
        | EmptyString => false
        | String b _ => negb (is_upper b)
        end in
      let r := String a (mark_capitals (is_lower a) s') in
      if is_upper a && (after_lower || before_other) then String underscore r else r
  end.

Definition ascii_camelcase_to_underscore (s : string) : string :=
  rstrip underscore (lstrip underscore (ascii_lower (mark_capitals false s))).

(** Sample requests: the permission filter hides pages whose path starts
    with ["9"] from anyone but a superuser. *)
Definition sample_permitted (request : Request) (p : Page) : bool :=
  is_superuser (user request) || negb (String.prefix "9" (path p)).

(** Sample forms: a form page validates any value but the empty text. *)
Definition sample_get_form (p : Page) (values : GenericScalar) (u : User) : option Form :=
  match model_class (content_type p) with
  | Some cls =>
      if sub_AbstractForm cls then
        match values with
        | GenericValue EmptyString =>
            Some {| is_valid := false; errors := [("email", ["Invalid"])] |}
        | GenericValue _ => Some {| is_valid := true; errors := [] |}
        end
      else None
  | None => None
  end.

Definition Page_class : ModelClass :=
  {| cls_module := "wagtail.core.models"; cls_name := "Page";
     sub_AbstractForm := false; sub_wagtailPage := true; sub_BaseSetting := false;
     verbose_name := "page"; meta_fields := [] |}.

Definition ascii_externals : Externals :=
  {| capwords := ascii_capwords;
     str_format := ascii_format;
     lower := ascii_lower;
     capfirst := ascii_capfirst;
     camelcase_to_underscore := ascii_camelcase_to_underscore;
     page_permitted := sample_permitted;
     get_form := sample_get_form;
     URL_PREFIX := "/home/";
     wagtailPage := Page_class |}.

(** *** A sample site *)

Definition BlogPage : ModelClass :=
  {| cls_module := "blog.models"; cls_name := "BlogPage";
     sub_AbstractForm := false; sub_wagtailPage := true; sub_BaseSetting := false;
     verbose_name := "blog page";
     meta_fields := [ {| field_name := "title"; stream_block := None |};
                      {| field_name := "body";
                         stream_block := Some [("heading", "CharBlock");
                                               ("paragraph", "RichTextBlock")] |} ] |}.

Definition ContactForm : ModelClass :=
  {| cls_module := "blog.models"; cls_name := "ContactForm";
     sub_AbstractForm := true; sub_wagtailPage := true; sub_BaseSetting := false;
     verbose_name := "contact form"; meta_fields := [] |}.

Definition SocialLinks : ModelClass :=
  {| cls_module := "blog.models"; cls_name := "SocialLinks";
     sub_AbstractForm := false; sub_wagtailPage := false; sub_BaseSetting := true;
     verbose_name := "social links"; meta_fields := [] |}.

Definition Author : ModelClass :=
  {| cls_module := "blog.models"; cls_name := "Author";
     sub_AbstractForm := false; sub_wagtailPage := false; sub_BaseSetting := false;
     verbose_name := "author"; meta_fields := [] |}.

Definition Tag : ModelClass :=
  {| cls_module := "blog.models"; cls_name := "Tag";
     sub_AbstractForm := false; sub_wagtailPage := false; sub_BaseSetting := false;
     verbose_name := "tag"; meta_fields := [] |}.

Definition Product : ModelClass :=
  {| cls_module := "shop.models"; cls_name := "Product";
     sub_AbstractForm := false; sub_wagtailPage := false; sub_BaseSetting := false;
     verbose_name := "product"; meta_fields := [] |}.

Definition content_type_of (app : string) (cls : ModelClass) : ContentType :=
  {| app_label := app; model_name := ascii_lower (cls_name cls);
     model_class := Some cls |}.

Definition stale_content_type : ContentType :=
  {| app_label := "blog"; model_name := "oldpage"; model_class := None |}.

Definition home_page : Page :=
  {| page_id := 2; url_path := "/home/"; path := "00010001"; depth := 2;
     live := true; show_in_menus := false;
     content_type := content_type_of "blog" BlogPage |}.

Definition about_page : Page :=
  {| page_id := 3; url_path := "/home/about/"; path := "000100010001"; depth := 3;
     live := true; show_in_menus := true;
     content_type := content_type_of "blog" BlogPage |}.

Definition team_page : Page :=
  {| page_id := 4; url_path := "/home/about/team/"; path := "0001000100010001";
     depth := 4; live := true; show_in_menus := false;
     content_type := content_type_of "blog" BlogPage |}.

Definition contact_page : Page :=
  {| page_id := 5; url_path := "/home/contact/"; path := "000100010002"; depth := 3;
     live := true; show_in_menus := true;
     content_type := content_type_of "blog" ContactForm |}.

Definition anonymous : Request :=
  {| user := {| username := ""; is_superuser := false |}; site := Some 1%Z |}.

(** The sample world before any registration: [Tag] is a snippet and also a
    model of the app, so it comes up twice in the driver's list. *)
Definition sample_world : World :=
  {| registry := empty_registry;
     snippet_models := [Tag];
     content_types := [ content_type_of "blog" BlogPage;
                        content_type_of "blog" ContactForm;
                        stale_content_type;
                        content_type_of "blog" SocialLinks;
                        content_type_of "blog" Author;
                        content_type_of "blog" Tag;
                        content_type_of "shop" Product ];
     page_table := [contact_page; team_page; home_page; about_page];
     form_submissions := [];
     synthesized := [] |}.

(** The sample world after [add_app('blog', '{app}', URL_PREFIX)], the call
    [add_apps] makes for the app. *)
Definition registered_world : World :=
  (@add_app ascii_externals "blog" "{app}" "/home/" sample_world).2.

(** A second setting with the display name of [SocialLinks], and a world
    whose app holds both. *)
Definition FooterLinks : ModelClass :=
  {| cls_module := "blog.models"; cls_name := "FooterLinks";
     sub_AbstractForm := false; sub_wagtailPage := false; sub_BaseSetting := true;
     verbose_name := "social links"; meta_fields := [] |}.

Definition colliding_world : World :=
  {| registry := empty_registry;
     snippet_models := [];
     content_types := [ content_type_of "blog" SocialLinks;
                        content_type_of "blog" FooterLinks ];
     page_table := [];
     form_submissions := [];
     synthesized := [] |}.

(** The form bound to an empty value on the sample site: validation fails
    on [email]. *)
Definition invalid_form : Form :=
  {| is_valid := false; errors := [("email", ["Invalid"])] |}.

(** A template that indexes into the class name, as [str.format] allows:
    ["{cls[8]}"] is the ninth character of the name and cannot be filled for
    a shorter name. *)
Definition indexing_format (t a c : string) : option string :=
  if bool_decide (t = "{cls[8]}")
  then (λ ch, String ch EmptyString) <$> String.get 8 c
  else ascii_format t a c.

Definition indexing_externals : Externals :=
  {| capwords := ascii_capwords;
     str_format := indexing_format;
     lower := ascii_lower;
     capfirst := ascii_capfirst;
     camelcase_to_underscore := ascii_camelcase_to_underscore;
     page_permitted := sample_permitted;
     get_form := sample_get_form;
     URL_PREFIX := "/home/";
     wagtailPage := Page_class |}.

(** A world without snippets whose app lists the form before the page. *)
Definition form_first_world : World :=
  {| registry := empty_registry;
     snippet_models := [];
     content_types := [ content_type_of "blog" ContactForm;
                        content_type_of "blog" BlogPage;
                        content_type_of "blog" Author ];
     page_table := [];
     form_submissions := [];
     synthesized := [] |}.

(** A page of the sample site that is a snippet as well, and the world in
    which wagtail lists it so. *)
Definition snippet_page_world : World :=
  {| registry := empty_registry;
     snippet_models := [BlogPage];
     content_types := [ content_type_of "blog" BlogPage ];
     page_table := [home_page];
     form_submissions := [];
     synthesized := [] |}.

(** Settings that register the apps [blog] and [shop], the second under a
    prefix of its own. *)
Definition sample_settings : GraphqlSettings :=
  {| APPS := ["blog"; "shop"];
     PREFIX := Some (PrefixMap {[ "shop" := "Store" ]}) |}.

(** A page of the sample site stored outside [URL_PREFIX]. *)
Definition root_page : Page :=
  {| page_id := 1; url_path := "/"; path := "0001"; depth := 1;
     live := true; show_in_menus := false;
     content_type := content_type_of "wagtailcore" Page_class |}.

Definition archive_page : Page :=
  {| page_id := 9; url_path := "/archive/2019/"; path := "00020001"; depth := 2;
     live := true; show_in_menus := false;
     content_type := content_type_of "blog" BlogPage |}.

(** A query by an anonymous visitor that selects [title] and [blogpage]. *)
Definition sample_info : ResolveInfo :=
  {| context := anonymous;
     selections := [SelField "title"; InlineFragment; SelField "blogpage"] |}.

(** * Properties *)

(** Unfolds the monad so that a run is a plain term over the world. *)
Ltac run :=
  repeat (unfold mbind, M_bind, bind, mret, M_ret, ret, raise, get_world, modify,
            modify_registry, getitem, new_type in *; simpl in * ).

(** ** Sets *)

Lemma set_add_union {K} `{Countable K} (x : K) (s : gset K) : set_add x s = {[x]} ∪ s.
Proof.
  destruct s as [m]. unfold set_add.
  change ({[x]} ∪ Mapset m) with (Mapset ({[x := ()]} ∪ m) : gset K).
  f_equal. apply insert_union_singleton_l.
Qed.

(** ** Strings *)

Lemma append_String (a : ascii) (s t : string) :
  String a s +:+ t = String a (s +:+ t).
Proof. reflexivity. Qed.

Lemma rstrip_append_char (c : ascii) (s : string) :
  rstrip c (s +:+ String c EmptyString) = rstrip c s.
Proof.
  induction s as [|a s IH].
  - simpl. by rewrite decide_True.
  - rewrite append_String. simpl. by rewrite IH.
Qed.

Lemma rstrip_idempotent (c : ascii) (s : string) :
  rstrip c (rstrip c s) = rstrip c s.
Proof.
  induction s as [|a s IH]; [done|].
  simpl. destruct (rstrip c s) as [|b r] eqn:E.
  - destruct (decide (a = c)) as [->|Hne]; simpl; [done|].
    by rewrite decide_False.
  - simpl in *. by rewrite IH.
Qed.

Lemma length_append (s t : string) :
  String.length (s +:+ t) = (String.length s + String.length t)%nat.
Proof. induction s as [|a s IH]; simpl; [done|]. by rewrite IH. Qed.

Lemma append_inj_l (p s t : string) : p +:+ s = p +:+ t → s = t.
Proof. induction p as [|a p IH]; simpl; [done|]. intros [=]. auto. Qed.

(** ** Querysets *)

Lemma elem_of_List_filter {A} (f : A → bool) (l : list A) (x : A) :
  x ∈ List.filter f l ↔ x ∈ l ∧ f x = true.
Proof. rewrite !list_elem_of_In. apply filter_In. Qed.

Lemma List_filter_nil {A} (f : A → bool) (l : list A) :
  (∀ x, x ∈ l → f x = false) → List.filter f l = [].
Proof.
  induction l as [|a l IH]; intros Hall; simpl; [done|].
  rewrite (Hall a) by left. apply IH. intros x Hx. apply Hall. by right.
Qed.

Lemma elem_of_objects (w : World) (p : Page) :
  p ∈ rows (objects w) ↔ p ∈ page_table w.
Proof. unfold objects, order_by_path. simpl. by rewrite merge_sort_Permutation. Qed.

Lemma related_objects (w : World) : related (objects w) = [].
Proof. reflexivity. Qed.

Lemma rows_select_related_loop (q : QuerySet) (pfs : list string) :
  rows (foldl (λ query pf, select_related pf query) q pfs) = rows q.
Proof. revert q. induction pfs as [|pf pfs IH]; intros q; simpl; [done|]. by rewrite IH. Qed.

Lemma related_select_related_loop (q : QuerySet) (pfs : list string) :
  related (foldl (λ query pf, select_related pf query) q pfs) = related q ++ pfs.
Proof.
  revert q. induction pfs as [|pf pfs IH]; intros q; simpl.
  - by rewrite app_nil_r.
  - rewrite IH. simpl. by rewrite <- app_assoc.
Qed.

Lemma first_filter_none (f : Page → bool) (q : QuerySet) :
  (∀ p, p ∈ rows q → f p = false) → first (qs_filter f q) = None.
Proof. intros Hall. unfold first, qs_filter. simpl. by rewrite List_filter_nil. Qed.

Lemma count_NoDup {A} `{EqDecision A} (l : list A) (x : A) :
  NoDup l → length (filter (λ y, y = x) l) = if decide (x ∈ l) then 1%nat else 0%nat.
Proof.
  induction 1 as [|a l Hnotin Hnd IH].
  - by case_decide; [set_solver|].
  - rewrite filter_cons. destruct (decide (a = x)) as [->|Hne].
    + rewrite length_cons, IH.
      destruct (decide (x ∈ l)); [done|].
      destruct (decide (x ∈ x :: l)); [done|set_solver].
    + rewrite IH.
      destruct (decide (x ∈ l)) as [Hin|Hout], (decide (x ∈ a :: l)) as [Hin'|Hout'];
        try done.
      * exfalso. apply Hout'. by right.
      * apply elem_of_cons in Hin' as [->|?]; done.
Qed.

Lemma elem_of_rows_listing `{Externals} (request : Request) (q : QuerySet) (p : Page) :
  p ∈ rows (all (order_by_path (qs_live (with_page_permissions request (specific q)))))
  ↔ p ∈ rows q ∧ page_permitted request p = true ∧ live p = true.
Proof.
  unfold all, order_by_path, qs_live, with_page_permissions, specific, qs_filter. simpl.
  rewrite merge_sort_Permutation, !elem_of_List_filter. tauto.
Qed.

Lemma related_listing `{Externals} (request : Request) (q : QuerySet) :
  related (all (order_by_path (qs_live (with_page_permissions request (specific q)))))
  = related q.
Proof. reflexivity. Qed.

Lemma related_child_of (other : Page) (q : QuerySet) :
  related (child_of other q) = related q.
Proof. reflexivity. Qed.

Lemma child_is_descendant (other p : Page) :
  child_of_q other p = true →
  descendant_of_q other false p = true ∧ depth p = (depth other + 1)%Z.
Proof.
  unfold child_of_q. rewrite andb_true_iff, Z.eqb_eq. tauto.
Qed.

Lemma elem_of_selection_names `{Externals} (info : ResolveInfo) (pf : string) :
  pf ∈ selection_names info ↔
  ∃ name, camelcase_to_underscore name = pf
          ∧ (SelField name ∈ selections info ∨ FragmentSpread name ∈ selections info).
Proof.
  unfold selection_names. rewrite elem_of_list_to_set, list_elem_of_omap. split.
  - intros [f [Hin Hf]]. destruct f as [name|name|]; simplify_eq; eauto.
  - intros [name [<- [Hin|Hin]]]; eexists; (split; [exact Hin|done]).
Qed.

(** ** The page queries *)

Lemma pair_split {A B} (x : A * B) (a : A) (b : B) : x.1 = a → x.2 = b → x = (a, b).
Proof. destruct x. simpl. congruence. Qed.

Section CoreProperties.
Context `{Externals}.

(** The queries and the resolver read the world and leave it as it is,
    whether they return or raise. *)
Lemma resolve_page_world (info : ResolveInfo) (id : option Z) (url : option string)
    (w : World) :
  (resolve_page info id url w).2 = w.
Proof.
  unfold resolve_page. run.
  destruct id as [id|]; [|destruct url as [url|]]; simpl; try done;
    match goal with |- context [first ?q] => by destruct (first q) end.
Qed.

Lemma resolve_pages_world (info : ResolveInfo) (parent : option Z) (w : World) :
  (resolve_pages info parent w).2 = w.
Proof.
  unfold resolve_pages, mbind, M_bind, bind, mret, M_ret, ret, raise, get_world.
  destruct parent as [parent|]; [|done]. by destruct (first _).
Qed.

Lemma resolve_type_world (instance : Instance) (w : World) :
  (resolve_type instance w).2 = w.
Proof.
  unfold resolve_type, getitem, mbind, M_bind, bind, mret, M_ret, ret, raise, get_world.
  destruct instance as [i|p].
  - destruct (first _) as [p|]; [|done]. by destruct (pages (registry w) !! _).
  - destruct (model_class (content_type p)) as [cls|]; [|done].
    by destruct (pages (registry w) !! _).
Qed.

(** C3, as amended: [page] needs at least one of [id] and [url].  With
    neither, it raises the invalid-argument error at once and leaves the
    world as it was.  With both, nothing is raised: [id] wins and [url] is
    ignored, so the call is the one with [id] alone and returns a (possibly
    absent) page. *)
Theorem page_requires_id_or_url (info : ResolveInfo) (w : World) :
  resolve_page info None None w
    = (Raise (ValueError "One of 'id' or 'url' must be specified"), w)
  ∧ ∀ (id : Z) (url : string),
      resolve_page info (Some id) (Some url) w = resolve_page info (Some id) None w
      ∧ ∃ page, resolve_page info (Some id) (Some url) w = (Ok page, w).
Proof.
  split; [reflexivity|]. intros id url. split; [reflexivity|].
  unfold resolve_page. run.
  match goal with |- context [first ?q] => destruct (first q) as [page|] end; eauto.
Qed.

(** C4, as amended: the lookup path of a [url] is
    [URL_PREFIX + url.rstrip('/') + '/'], so trailing slashes are normalised
    away and a leading slash is kept.  [page(url="about/")] and
    [page(url="about")] both look up [<URL_PREFIX>about/] and are the same
    query, as are [url] and [url + "/"] for every [url]; [page(url="/about/")]
    looks up [<URL_PREFIX>/about/], a different path. *)
Theorem page_url_trailing_slash_normalised (info : ResolveInfo) (w : World) :
  lookup_path URL_PREFIX "about/" = URL_PREFIX +:+ "about/"
  ∧ lookup_path URL_PREFIX "about" = URL_PREFIX +:+ "about/"
  ∧ resolve_page info None (Some "about/") w = resolve_page info None (Some "about") w
  ∧ (∀ url : string,
       lookup_path URL_PREFIX (url +:+ "/") = lookup_path URL_PREFIX url
       ∧ resolve_page info None (Some (url +:+ "/")) w
         = resolve_page info None (Some url) w)
  ∧ lookup_path URL_PREFIX "/about/" = URL_PREFIX +:+ "/about/"
  ∧ lookup_path URL_PREFIX "/about/" ≠ lookup_path URL_PREFIX "about".
Proof.
  assert (Hslash : ∀ url, lookup_path URL_PREFIX (url +:+ "/") = lookup_path URL_PREFIX url).
  { intros url. unfold lookup_path, slash.
    by rewrite (rstrip_append_char "/"%char url). }
  repeat split; try reflexivity.
  - apply Hslash.
  - unfold resolve_page. run. by rewrite Hslash.
  - unfold lookup_path. simpl. intros Heq. by apply append_inj_l in Heq.
Qed.

(** C5, as amended: [pages(parent=p)], for a [p] that resolves to a page,
    returns exactly the live, permitted direct children of that page (the
    code filters with [child_of]).  Every returned record is a descendant of
    [p], one level below it; deeper descendants are not returned. *)
Theorem pages_parent_lists_children (info : ResolveInfo) (parent : Z)
    (parent_page : Page) (w : World)
    (Hparent : first (qs_filter (λ p, (page_id p =? parent)%Z) (objects w))
               = Some parent_page) :
  ∃ q, resolve_pages info (Some parent) w = (Ok q, w)
       ∧ (∀ r, r ∈ rows q ↔
               r ∈ page_table w ∧ child_of_q parent_page r = true
               ∧ page_permitted (context info) r = true ∧ live r = true)
       ∧ (∀ r, r ∈ rows q →
               descendant_of_q parent_page false r = true
               ∧ depth r = (depth parent_page + 1)%Z).
Proof.
  unfold resolve_pages. run. rewrite Hparent. simpl.
  eexists. split; [reflexivity|].
  assert (Hrows : ∀ r,
    r ∈ rows (all (order_by_path (qs_live (with_page_permissions (context info)
           (specific (child_of parent_page
              (foldl (λ query pf, select_related pf query) (objects w)
                 (elements (page_prefetch_fields (registry w) ∩ selection_names info))))))))) ↔
    r ∈ page_table w ∧ child_of_q parent_page r = true
    ∧ page_permitted (context info) r = true ∧ live r = true).
  { intros r. rewrite elem_of_rows_listing. unfold child_of, qs_filter. simpl.
    rewrite elem_of_List_filter, rows_select_related_loop, elem_of_objects. tauto. }
  split; [exact Hrows|].
  intros r Hr. apply Hrows in Hr as (_ & Hchild & _). by apply child_is_descendant.
Qed.

(** C6: [pages(parent=p)] with no page of id [p] raises the not-found error
    (it does not return a list, empty or not), whereas [page] answers a
    lookup that finds nothing with an absent page, without raising. *)
Theorem pages_parent_not_found (info : ResolveInfo) (parent : Z) (w : World)
    (Hnone : ∀ p, p ∈ page_table w → page_id p ≠ parent) :
  resolve_pages info (Some parent) w
    = (Raise (ValueError ("Page id=" +:+ pretty parent +:+ " not found.")), w)
  ∧ resolve_page info (Some parent) None w = (Ok None, w)
  ∧ ∀ url : string,
      (∀ p, p ∈ page_table w → url_path p ≠ lookup_path URL_PREFIX url) →
      resolve_page info None (Some url) w = (Ok None, w).
Proof.
  assert (Hid : List.filter (λ p, (page_id p =? parent)%Z) (rows (objects w)) = []).
  { apply List_filter_nil. intros p Hp. apply elem_of_objects in Hp.
    apply Z.eqb_neq. by apply Hnone. }
  split; [|split].
  - unfold resolve_pages. run. unfold first, qs_filter. simpl in *. by rewrite Hid.
  - unfold resolve_page. run.
    unfold first, qs_live, with_page_permissions, specific, select_related, qs_filter.
    simpl in *. by rewrite Hid.
  - intros url Hurl. unfold resolve_page. run.
    unfold first, qs_live, with_page_permissions, specific, select_related, qs_filter.
    simpl in *. rewrite (List_filter_nil (λ p, bool_decide (url_path p = _))); [done|].
    intros p Hp. apply elem_of_objects in Hp. apply bool_decide_eq_false. by apply Hurl.
Qed.

(** Without a [parent], [resolve_pages] always returns. *)
Lemma resolve_pages_returns (info : ResolveInfo) (w : World) :
  ∃ q, resolve_pages info None w = (Ok q, w).
Proof. eexists. reflexivity. Qed.

(** C9: in a call of [resolve_pages] that returns, the joins applied by
    [select_related] are exactly the members of the intersection of the
    registry's [page_prefetch_fields] with the requested selection names (the
    underscore form of the names of the selections that are not inline
    fragments), each joined exactly once.  When no requested name is in
    [page_prefetch_fields] there is no join; a selected field whose name is
    in [page_prefetch_fields] gets exactly one join. *)
Theorem pages_prefetch_selected (info : ResolveInfo) (parent : option Z)
    (w w' : World) (q : QuerySet)
    (Hrun : resolve_pages info parent w = (Ok q, w')) :
  related q = elements (page_prefetch_fields (registry w) ∩ selection_names info)
  ∧ (∀ pf, length (filter (λ y, y = pf) (related q))
           = if decide (pf ∈ page_prefetch_fields (registry w) ∧ pf ∈ selection_names info)
             then 1%nat else 0%nat)
  ∧ ((∀ pf, pf ∈ selection_names info → pf ∉ page_prefetch_fields (registry w)) →
     related q = [])
  ∧ (∀ name, SelField name ∈ selections info →
             camelcase_to_underscore name ∈ page_prefetch_fields (registry w) →
             length (filter (λ y, y = camelcase_to_underscore name) (related q)) = 1%nat).
Proof.
  assert (Hrel : related q
                 = elements (page_prefetch_fields (registry w) ∩ selection_names info)).
  { unfold resolve_pages, mbind, M_bind, bind, mret, M_ret, ret, raise, get_world in Hrun.
    destruct parent as [parent|].
    - destruct (first _) as [parent_page|]; [|done].
      injection Hrun as <- _.
      by rewrite related_listing, related_child_of, related_select_related_loop.
    - injection Hrun as <- _.
      by rewrite related_listing, related_select_related_loop. }
  assert (Hcount : ∀ pf, length (filter (λ y, y = pf) (related q))
           = if decide (pf ∈ page_prefetch_fields (registry w) ∧ pf ∈ selection_names info)
             then 1%nat else 0%nat).
  { intros pf. rewrite Hrel, count_NoDup by apply NoDup_elements.
    destruct (decide (pf ∈ elements _)) as [Hin|Hout];
      rewrite elem_of_elements, elem_of_intersection in *.
    - by rewrite decide_True.
    - by rewrite decide_False. }
  split; [exact Hrel|]. split; [exact Hcount|]. split.
  - intros Hdisjoint. rewrite Hrel. apply elements_empty_iff.
    intros pf. rewrite elem_of_intersection. split; [|by intros ?%not_elem_of_empty].
    intros [Hpf Hsel]. by apply Hdisjoint in Hsel.
  - intros name Hsel Hpf. rewrite Hcount, decide_True; [done|].
    split; [done|]. apply elem_of_selection_names. eauto.
Qed.

(** The run of [mutate] once its form page is found and bound. *)
Lemma mutate_found (_node url_prefix : string) (info : ResolveInfo)
    (url : string) (values : GenericScalar) (w : World)
    (instance : Page) (form : Form) (tp : SynthType) :
  first (qs_live (with_page_permissions (context info)
           (specific (qs_filter
              (λ p, bool_decide (url_path p = lookup_path url_prefix url))
              (objects w))))) = Some instance →
  get_form instance values (user (context info)) = Some form →
  forms (registry w) !! _node = Some tp →
  mutate _node url_prefix info url values w
  = if is_valid form
    then (Ok {| payload_type := tp; result := "OK"; result_errors := None |},
          set_form_submissions (λ l, l ++ [(instance, form)]) w)
    else (Ok {| payload_type := tp; result := "FAIL";
                result_errors :=
                  Some ((λ err : string * list string,
                           {| error_name := err.1; error_messages := err.2 |})
                          <$> errors form) |},
          w).
Proof.
  intros Hinstance Hform Htp.
  unfold mutate, registry_forms, process_form_submission. run.
  rewrite Hinstance, Hform. destruct (is_valid form); simpl; rewrite Htp; reflexivity.
Qed.

(** A page that is not there, or that is not a form page, makes [mutate]
    raise before any handler runs. *)
Lemma mutate_not_found (_node url_prefix : string) (info : ResolveInfo)
    (url : string) (values : GenericScalar) (w : World) :
  first (qs_live (with_page_permissions (context info)
           (specific (qs_filter
              (λ p, bool_decide (url_path p = lookup_path url_prefix url))
              (objects w))))) = None →
  mutate _node url_prefix info url values w = (Raise AttributeError, w).
Proof. intros Hnone. unfold mutate. run. by rewrite Hnone. Qed.

(** C7: an execution of the form mutation that finds its form page.  When
    the bound form validates, the submission handler runs (the submission
    is stored) and the result is ["OK"] with no error entries (the [errors]
    field is left unset); when it does not validate, the handler does not
    run (the world is unchanged) and the result is ["FAIL"] with one
    (field name, messages) entry per item of the form's errors, in their
    reported order. *)
Theorem form_mutation_outcomes (_node url_prefix : string) (info : ResolveInfo)
    (url : string) (values : GenericScalar) (w : World)
    (instance : Page) (form : Form) (tp : SynthType)
    (Hinstance :
       first (qs_live (with_page_permissions (context info)
                (specific (qs_filter
                   (λ p, bool_decide (url_path p = lookup_path url_prefix url))
                   (objects w))))) = Some instance)
    (Hform : get_form instance values (user (context info)) = Some form)
    (Htp : forms (registry w) !! _node = Some tp) :
  (is_valid form = true →
   ∃ payload,
     mutate _node url_prefix info url values w
     = (Ok payload, set_form_submissions (λ l, l ++ [(instance, form)]) w)
     ∧ payload = {| payload_type := tp; result := "OK"; result_errors := None |}
     ∧ reported_errors payload = [])
  ∧ (is_valid form = false →
     ∃ payload,
       mutate _node url_prefix info url values w = (Ok payload, w)
       ∧ payload_type payload = tp
       ∧ result payload = "FAIL"
       ∧ reported_errors payload
         = (λ err : string * list string,
              {| error_name := err.1; error_messages := err.2 |}) <$> errors form
       ∧ error_name <$> reported_errors payload = fst <$> errors form
       ∧ error_messages <$> reported_errors payload = snd <$> errors form).
Proof.
  pose proof (mutate_found _node url_prefix info url values w instance form tp
                Hinstance Hform Htp) as Hrun.
  split; intros Hvalid; rewrite Hvalid in Hrun; eexists; (split; [exact Hrun|]).
  - split; reflexivity.
  - unfold reported_errors. simpl. repeat split; try reflexivity.
    + rewrite <- list_fmap_compose. by apply list_fmap_ext.
    + rewrite <- list_fmap_compose. by apply list_fmap_ext.
Qed.

End CoreProperties.

(** C10: the [User] schema type never exposes [password]; its fields are
    the model's fields without [password], in the model's order. *)
Theorem User_never_exposes_password (wagtailUser_fields : list string) :
  ("password" ∉ User_fields wagtailUser_fields)
  ∧ (∀ name, name ∈ User_fields wagtailUser_fields ↔
             name ∈ wagtailUser_fields ∧ name ≠ "password")
  ∧ User_fields wagtailUser_fields
    = filter (λ name, name ≠ "password") wagtailUser_fields.
Proof.
  assert (Hmem : ∀ name, name ∈ User_fields wagtailUser_fields ↔
                         name ∈ wagtailUser_fields ∧ name ≠ "password").
  { intros name. unfold User_fields, construct_fields, User_Meta. simpl.
    rewrite elem_of_List_filter, negb_true_iff, bool_decide_eq_false.
    rewrite list_elem_of_singleton. tauto. }
  split; [|split; [exact Hmem|]].
  - intros Hin. apply Hmem in Hin. tauto.
  - clear Hmem. unfold User_fields, construct_fields, User_Meta. simpl.
    induction wagtailUser_fields as [|f fs IH]; [done|].
    simpl. rewrite filter_cons.
    destruct (decide (f ≠ "password")) as [Hne|Heq].
    + rewrite bool_decide_eq_false_2; [|by rewrite list_elem_of_singleton].
      simpl. by rewrite IH.
    + apply dec_stable in Heq as ->. simpl. apply IH.
Qed.

(** ** The registration driver *)

Section ActionsProperties.
Context `{Externals}.

Lemma dp_Meta_add_streamfield (node app prefix : string) (dp : DictParams) (f : Field) :
  dp_Meta (add_streamfield node app prefix dp f) = dp_Meta dp.
Proof. unfold add_streamfield. by destruct (stream_block f). Qed.

Lemma dp_Meta_add_streamfields (cls : ModelClass) (node app prefix : string)
    (dp : DictParams) :
  dp_Meta (_add_streamfields cls node dp app prefix) = dp_Meta dp.
Proof.
  unfold _add_streamfields. revert dp.
  induction (meta_fields cls) as [|f fs IH]; intros dp; simpl; [done|].
  by rewrite IH, dp_Meta_add_streamfield.
Qed.

(** A model without stream fields adds nothing to the parameters. *)
Lemma add_streamfields_none (cls : ModelClass) (node app prefix : string)
    (dp : DictParams) :
  (∀ f, f ∈ meta_fields cls → stream_block f = None) →
  _add_streamfields cls node dp app prefix = dp.
Proof.
  unfold _add_streamfields. revert dp.
  induction (meta_fields cls) as [|f fs IH]; intros dp Hall; simpl; [done|].
  unfold add_streamfield at 2. rewrite (Hall f) by left.
  apply IH. intros g Hg. apply Hall. by right.
Qed.

(** The seen-guard: registering a class that is already in [registered]
    changes neither the set nor the world. *)
Lemma register_model_seen (registered : gset ModelClass) (cls : ModelClass)
    (snippet : bool) (app prefix url_prefix : string) (w : World) :
  cls ∈ registered →
  _register_model registered cls snippet app prefix url_prefix w = (Ok registered, w).
Proof. intros Hin. unfold _register_model. by rewrite decide_True. Qed.

(** A template that cannot be filled raises before anything is written. *)
Lemma register_model_format_error (registered : gset ModelClass) (cls : ModelClass)
    (snippet : bool) (app prefix url_prefix : string) (w : World) :
  cls ∉ registered →
  str_format prefix (capwords app None) (cls_name cls) = None →
  _register_model registered cls snippet app prefix url_prefix w = (Raise FormatError, w).
Proof. intros Hout Hfmt. unfold _register_model. by rewrite decide_False, Hfmt. Qed.

Lemma add_streamfield_entries (node app prefix : string) (dp : DictParams) (f : Field)
    (m : option Meta) :
  add_streamfield node app prefix {| dp_Meta := m; dp_entries := dp_entries dp |} f
  = {| dp_Meta := m; dp_entries := dp_entries (add_streamfield node app prefix dp f) |}.
Proof. unfold add_streamfield. by destruct (stream_block f). Qed.

(** The stream-field entries do not depend on the [Meta] entry. *)
Lemma add_streamfields_entries (cls : ModelClass) (node app prefix : string)
    (dp : DictParams) (m : option Meta) :
  _add_streamfields cls node {| dp_Meta := m; dp_entries := dp_entries dp |} app prefix
  = {| dp_Meta := m;
       dp_entries := dp_entries (_add_streamfields cls node dp app prefix) |}.
Proof.
  unfold _add_streamfields. revert dp.
  induction (meta_fields cls) as [|f fs IH]; intros dp; simpl; [done|].
  by rewrite add_streamfield_entries, IH.
Qed.

(** Registering an unseen class runs the builder of its kind: the node type
    of the class is created (and the mutation type of a form), and the
    registry receives the writes of that kind. *)
Lemma register_model_fresh (registered : gset ModelClass) (cls : ModelClass)
    (snippet : bool) (app prefix url_prefix : string) (w : World) (pfx : string) :
  cls ∉ registered →
  str_format prefix (capwords app None) (cls_name cls) = Some pfx →
  let k := classify snippet cls in
  let node := pfx +:+ cls_name cls in
  _register_model registered cls snippet app prefix url_prefix w
  = (Ok ({[cls]} ∪ registered),
     set_synthesized (λ l, l ++ types_created k cls node app pfx url_prefix)
       (set_registry
          (registry_after k cls node (node_type k cls node app pfx)
                          (mutation_type node url_prefix)) w)).
Proof.
  intros Hout Hfmt k node. unfold _register_model. rewrite decide_False, Hfmt by done.
  fold node. rewrite set_add_union.
  pose proof (add_streamfields_entries cls node app pfx
                {| dp_Meta := None; dp_entries := ∅ |}
                (Some {| model := cls; interfaces := [] |})) as Hstreams.
  simpl in Hstreams. rewrite Hstreams. clear Hstreams.
  unfold k, classify, types_created, node_type, mutation_type.
  destruct snippet; [|destruct (sub_AbstractForm cls); [|destruct (sub_wagtailPage cls);
    [|destruct (sub_BaseSetting cls)]]];
    unfold _add_snippet, _add_form, _add_page, _add_setting, _add_django_model;
    unfold mbind, M_bind, bind, mret, M_ret, ret, modify_registry, modify, new_type,
      set_synthesized, set_registry, set_interfaces, set_entry; simpl;
    unfold set_page_prefetch_fields; simpl;
    rewrite <- ?app_assoc, ?set_add_union; reflexivity.
Qed.

End ActionsProperties.

(** ** Buckets before and after one registration *)

Section BucketProperties.
Context `{Externals}.

Lemma buckets_holding_nil (r : Registry) (app prefix : string) (cls : ModelClass) :
  buckets_holding r app prefix cls = [] →
  ∀ b, appears_in r (node_name app prefix cls) cls b = false.
Proof.
  unfold buckets_holding, all_buckets. intros Hnil b.
  destruct (appears_in r (node_name app prefix cls) cls b) eqn:Hb; [|done].
  assert (Hin : b ∈ List.filter (appears_in r (node_name app prefix cls) cls) all_buckets).
  { apply elem_of_List_filter. split; [|done]. unfold all_buckets.
    destruct b; repeat first [apply list_elem_of_here | apply list_elem_of_further]. }
  unfold all_buckets in Hin. rewrite Hnil in Hin. by apply not_elem_of_nil in Hin.
Qed.

Lemma buckets_holding_expected (r : Registry) (app prefix : string) (cls : ModelClass)
    (k : Kind) :
  (∀ b, appears_in r (node_name app prefix cls) cls b = bool_decide (b ∈ expected_buckets k)) →
  buckets_holding r app prefix cls = expected_buckets k.
Proof.
  intros Hall. unfold buckets_holding, all_buckets. cbn [List.filter]. rewrite !Hall.
  by destruct k.
Qed.

(** Registering [x] leaves the buckets of another class alone, as long as
    the two differ in node name and in display name. *)
Lemma appears_in_frame (k : Kind) (x : ModelClass) (nx : string) (tp tpm : SynthType)
    (r : Registry) (nc : option string) (c : ModelClass) (b : Bucket) :
  x ≠ c → nc ≠ Some nx →
  capfirst (verbose_name x) ≠ capfirst (verbose_name c) →
  appears_in (registry_after k x nx tp tpm r) nc c b = appears_in r nc c b.
Proof.
  intros Hcls Hnode Hkey.
  destruct k, b; simpl; try reflexivity;
    try (by rewrite lookup_insert_ne);
    destruct nc as [n|]; simpl; try reflexivity;
    rewrite lookup_insert_ne; congruence.
Qed.

(** Registering a class that is in no bucket puts it into the buckets of
    its kind and into no other. *)
Lemma appears_in_hit (k : Kind) (c : ModelClass) (n : string) (tp tpm : SynthType)
    (r : Registry) (b : Bucket) :
  (∀ b', appears_in r (Some n) c b' = false) →
  appears_in (registry_after k c n tp tpm r) (Some n) c b
  = bool_decide (b ∈ expected_buckets k).
Proof.
  intros Hfresh.
  destruct k, b; cbn [expected_buckets];
    lazymatch goal with
    | |- _ = ?rhs => let v := eval vm_compute in rhs in change rhs with v
    end;
    first [ exact (Hfresh Pages) | exact (Hfresh Forms)
          | exact (Hfresh SettingsBucket) | exact (Hfresh Snippets)
          | exact (Hfresh GenericRecords)
          | cbn; rewrite lookup_insert_eq; apply bool_decide_eq_true_2; eauto ].
Qed.

Lemma registrations_created (c x : ModelClass) (k : Kind) (node app pfx url_prefix : string)
    (f : Registry → Registry) (w : World) :
  registrations c
    (set_synthesized (λ l, l ++ types_created k x node app pfx url_prefix)
       (set_registry f w))
  = (registrations c w + if decide (c = x) then 1 else 0)%nat.
Proof.
  unfold registrations. simpl. rewrite filter_app, length_app. f_equal.
  unfold types_created. rewrite filter_cons.
  assert (Hnode : tp_model (node_type k x node app pfx) = Some x) by done.
  assert (Hmut : tp_model (mutation_type node url_prefix) = None) by done.
  rewrite Hnode.
  destruct (decide (c = x)) as [->|Hne].
  - rewrite decide_True by done.
    destruct k; try done; rewrite filter_cons, Hmut; by rewrite decide_False.
  - rewrite decide_False by congruence.
    destruct k; try done; rewrite filter_cons, Hmut; by rewrite decide_False.
Qed.

(** One registration appends the node type of the class to the types
    synthesized for it, and nothing to those of another class. *)
Lemma synthesized_created (c x : ModelClass) (k : Kind) (node app pfx url_prefix : string)
    (f : Registry → Registry) (w : World) :
  filter (λ tp, tp_model tp = Some c)
    (synthesized (set_synthesized (λ l, l ++ types_created k x node app pfx url_prefix)
                    (set_registry f w)))
  = filter (λ tp, tp_model tp = Some c) (synthesized w)
    ++ if decide (c = x) then [node_type k x node app pfx] else [].
Proof.
  simpl. rewrite filter_app. f_equal.
  unfold types_created. rewrite filter_cons.
  assert (Hnode : tp_model (node_type k x node app pfx) = Some x) by done.
  assert (Hmut : tp_model (mutation_type node url_prefix) = None) by done.
  rewrite Hnode.
  destruct (decide (c = x)) as [->|Hne].
  - rewrite decide_True by done.
    destruct k; try done; rewrite filter_cons, Hmut; by rewrite decide_False.
  - rewrite decide_False by congruence.
    destruct k; try done; rewrite filter_cons, Hmut; by rewrite decide_False.
Qed.

(** When [x] is registered, another class can enter only [forms] or
    [django], and only by sharing the node name of [x]. *)
Lemma appears_in_gained (kx : Kind) (x : ModelClass) (nx : string) (tp tpm : SynthType)
    (r : Registry) (nc : option string) (c : ModelClass) (b : Bucket) :
  x ≠ c →
  appears_in (registry_after kx x nx tp tpm r) nc c b = true →
  appears_in r nc c b = true
  ∨ (nc = Some nx ∧ ((b = Forms ∧ kx = FormKind) ∨ (b = GenericRecords ∧ kx = GenericRecord))).
Proof.
  intros Hcls.
  destruct kx, b; simpl; rewrite ?lookup_insert_ne by done; try (by left);
    try (destruct nc as [n|]; simpl; [|by left];
         destruct (decide (nx = n)) as [->|Hne];
         [right; eauto | rewrite lookup_insert_ne by done; by left]).
  destruct (decide (capfirst (verbose_name x) = capfirst (verbose_name c))) as [Heq|Hne].
  - rewrite Heq, lookup_insert_eq. intros Hx%bool_decide_eq_true. congruence.
  - rewrite lookup_insert_ne by done. by left.
Qed.

(** When [x] is registered, another class can leave only [settings], and
    only when [x] is a setting of the same display name. *)
Lemma appears_in_lost (kx : Kind) (x : ModelClass) (nx : string) (tp tpm : SynthType)
    (r : Registry) (nc : option string) (c : ModelClass) (b : Bucket) :
  x ≠ c →
  appears_in r nc c b = true →
  appears_in (registry_after kx x nx tp tpm r) nc c b = true
  ∨ (b = SettingsBucket ∧ kx = SettingKind
     ∧ capfirst (verbose_name x) = capfirst (verbose_name c)).
Proof.
  intros Hcls.
  destruct kx, b; simpl; rewrite ?lookup_insert_ne by done; try (by left);
    try (destruct nc as [n|]; simpl; [|by left];
         destruct (decide (nx = n)) as [->|Hne];
         [rewrite lookup_insert_eq; left; apply bool_decide_eq_true_2; eauto
         |rewrite lookup_insert_ne by done; by left]).
  destruct (decide (capfirst (verbose_name x) = capfirst (verbose_name c))) as [Heq|Hne].
  - right. done.
  - rewrite lookup_insert_ne by done. by left.
Qed.

Lemma expected_buckets_elem (k : Kind) (b : Bucket) :
  b ∈ expected_buckets k ↔
  match b with
  | Pages => k = FormKind ∨ k = PageKind
  | Forms => k = FormKind
  | SettingsBucket => k = SettingKind
  | Snippets => k = Snippet
  | GenericRecords => k = GenericRecord
  end.
Proof.
  destruct k, b; simpl;
    rewrite ?elem_of_cons, ?list_elem_of_singleton; rewrite ?elem_of_nil; naive_solver.
Qed.

(** Registering a class that is in no bucket outside those of its kind
    puts it into exactly the buckets of its kind. *)
Lemma appears_in_hit_within (k : Kind) (c : ModelClass) (n : string) (tp tpm : SynthType)
    (r : Registry) (b : Bucket) :
  (∀ b', appears_in r (Some n) c b' = true → b' ∈ expected_buckets k) →
  appears_in (registry_after k c n tp tpm r) (Some n) c b
  = bool_decide (b ∈ expected_buckets k).
Proof.
  intros Hwithin.
  destruct (decide (b ∈ expected_buckets k)) as [Hin|Hout].
  - rewrite (bool_decide_eq_true_2 _ Hin). apply expected_buckets_elem in Hin.
    destruct k, b; simpl; try (destruct Hin; discriminate); try discriminate;
      rewrite ?lookup_insert_eq; apply bool_decide_eq_true_2; eauto.
  - rewrite (bool_decide_eq_false_2 _ Hout).
    assert (Hold : appears_in r (Some n) c b = false).
    { destruct (appears_in r (Some n) c b) eqn:Hb; [|done]. by apply Hwithin in Hb. }
    rewrite expected_buckets_elem in Hout.
    destruct k, b; simpl in *; try exact Hold; exfalso; apply Hout; eauto.
Qed.

(** Registering [x] keeps another class within the buckets of its kind,
    as long as a form or generic record [x] shares its node name only with
    classes of its own kind. *)
Lemma appears_in_within_kept (kx kc : Kind) (x c : ModelClass) (nx : string)
    (tp tpm : SynthType) (r : Registry) (nc : option string) :
  x ≠ c → (nc = Some nx → kx = FormKind ∨ kx = GenericRecord → kc = kx) →
  (∀ b, appears_in r nc c b = true → b ∈ expected_buckets kc) →
  ∀ b, appears_in (registry_after kx x nx tp tpm r) nc c b = true →
       b ∈ expected_buckets kc.
Proof.
  intros Hcls Hnode Hwithin b Hb.
  apply appears_in_gained in Hb as [Hb|[Hnc [[-> ->]|[-> ->]]]]; [by apply Hwithin|..|done];
    rewrite (Hnode Hnc) by eauto; apply expected_buckets_elem; done.
Qed.

(** It keeps a class that is in exactly the buckets of its kind there, as
    long as, moreover, a setting [x] does not share its display name with
    another setting. *)
Lemma appears_in_exact_kept (kx kc : Kind) (x c : ModelClass) (nx : string)
    (tp tpm : SynthType) (r : Registry) (nc : option string) :
  x ≠ c → (nc = Some nx → kx = FormKind ∨ kx = GenericRecord → kc = kx) →
  (kx = SettingKind → kc = SettingKind →
   capfirst (verbose_name x) ≠ capfirst (verbose_name c)) →
  (∀ b, appears_in r nc c b = bool_decide (b ∈ expected_buckets kc)) →
  ∀ b, appears_in (registry_after kx x nx tp tpm r) nc c b
       = bool_decide (b ∈ expected_buckets kc).
Proof.
  intros Hcls Hnode Hname Hexact b.
  destruct (decide (b ∈ expected_buckets kc)) as [Hin|Hout].
  - rewrite (bool_decide_eq_true_2 _ Hin).
    assert (Hold : appears_in r nc c b = true)
      by (rewrite Hexact; by apply bool_decide_eq_true_2).
    apply (appears_in_lost kx x nx tp tpm) in Hold as [Hnew|(-> & Hkx & Hkey)];
      [done| |done].
    apply expected_buckets_elem in Hin. by destruct (Hname Hkx Hin).
  - rewrite (bool_decide_eq_false_2 _ Hout).
    destruct (appears_in (registry_after kx x nx tp tpm r) nc c b) eqn:Hb; [|done].
    exfalso. apply Hout.
    apply (appears_in_within_kept kx kc x c nx tp tpm r nc); try done.
    intros b' Hb'. rewrite Hexact in Hb'. by apply bool_decide_eq_true in Hb'.
Qed.

Lemma registered_entries_hit (k : Kind) (c : ModelClass) (n : string)
    (tp tpm : SynthType) (r : Registry) :
  registered_entries (registry_after k c n tp tpm r) k c n tp tpm.
Proof. destruct k; simpl; rewrite ?lookup_insert_eq; done. Qed.

Lemma registered_entries_frame (kx k : Kind) (x c : ModelClass) (nx n : string)
    (tpx tpmx tp tpm : SynthType) (r : Registry) :
  x ≠ c → nx ≠ n → capfirst (verbose_name x) ≠ capfirst (verbose_name c) →
  registered_entries r k c n tp tpm →
  registered_entries (registry_after kx x nx tpx tpmx r) k c n tp tpm.
Proof.
  intros Hcls Hnode Hkey.
  destruct kx, k; simpl; rewrite ?lookup_insert_ne by done; done.
Qed.

Lemma entries_kept_hit (k : Kind) (c : ModelClass) (n : string)
    (tp tpm : SynthType) (r : Registry) :
  entries_kept (registry_after k c n tp tpm r) k c n tp tpm.
Proof. destruct k; simpl; rewrite ?lookup_insert_eq; eauto. Qed.

Lemma entries_kept_frame (kx k : Kind) (x c : ModelClass) (nx n url_prefix : string)
    (tpx tp : SynthType) (r : Registry) :
  x ≠ c →
  entries_kept r k c n tp (mutation_type n url_prefix) →
  entries_kept (registry_after kx x nx tpx (mutation_type nx url_prefix) r)
               k c n tp (mutation_type n url_prefix).
Proof.
  intros Hcls.
  destruct kx, k; simpl; rewrite ?lookup_insert_ne by done; try done;
    rewrite ?lookup_insert; intros Hold; repeat case_decide; subst; try done;
    try (destruct Hold; split; done); eauto.
Qed.

End BucketProperties.

(** ** The loop of [add_app] *)

Section DriverProperties.
Context `{Externals}.
Variables (app prefix url_prefix : string) (snippets : list ModelClass).

Local Abbreviation body :=
  (λ registered cls,
     _register_model registered cls (bool_decide (cls ∈ snippets))
                     app prefix url_prefix).

Local Abbreviation kind_of cls := (classify (bool_decide (cls ∈ snippets)) cls).

(** The invariant rule of the loop: a property of the seen-set and the
    world that holds at the start and survives the registration of every
    unseen class of the list holds at the end, and the loop returns with all
    the classes of the list seen. *)
Lemma register_loop_invariant (I : gset ModelClass → World → Prop)
    (l : list ModelClass) :
  (∀ c, c ∈ l → is_Some (node_name app prefix c)) →
  (∀ registered w c pfx,
     c ∈ l → c ∉ registered →
     str_format prefix (capwords app None) (cls_name c) = Some pfx →
     I registered w →
     I ({[c]} ∪ registered)
       (set_synthesized
          (λ created, created ++ types_created (kind_of c) c (pfx +:+ cls_name c)
                                               app pfx url_prefix)
          (set_registry
             (registry_after (kind_of c) c (pfx +:+ cls_name c)
                (node_type (kind_of c) c (pfx +:+ cls_name c) app pfx)
                (mutation_type (pfx +:+ cls_name c) url_prefix)) w))) →
  ∀ registered w,
    I registered w →
    ∃ w', for_each body registered l w = (Ok (list_to_set l ∪ registered), w')
          ∧ I (list_to_set l ∪ registered) w'.
Proof.
  induction l as [|x l IH]; intros Hfmt Hstep registered w HI.
  - exists w. simpl. rewrite (left_id_L ∅ (∪)). done.
  - simpl. unfold mbind, M_bind, bind.
    destruct (decide (x ∈ registered)) as [Hseen|Hnew].
    + rewrite register_model_seen by done.
      replace ({[x]} ∪ list_to_set l ∪ registered) with (list_to_set l ∪ registered)
        by set_solver.
      apply IH; [| |done].
      * intros c Hc. apply Hfmt. by right.
      * intros r w0 c pfx Hc. apply Hstep. by right.
    + destruct (Hfmt x) as [node Hnode]; [left|].
      unfold node_name in Hnode.
      destruct (str_format prefix (capwords app None) (cls_name x)) as [pfx|] eqn:Hpfx;
        [|done].
      rewrite (register_model_fresh _ _ _ _ _ _ _ pfx) by done.
      replace ({[x]} ∪ list_to_set l ∪ registered)
        with (list_to_set l ∪ ({[x]} ∪ registered)) by set_solver.
      apply IH.
      * intros c Hc. apply Hfmt. by right.
      * intros r w0 c pfx' Hc. apply Hstep. by right.
      * apply Hstep; [left|done..].
Qed.

End DriverProperties.

Section DriverTheorems.
Context `{Externals}.

Lemma pages_registry_after (k : Kind) (x : ModelClass) (node : string)
    (tp tpm : SynthType) (r : Registry) (c : ModelClass) :
  pages (registry_after k x node tp tpm r) !! c
  = match k with
    | FormKind | PageKind => if decide (x = c) then Some tp else pages r !! c
    | _ => pages r !! c
    end.
Proof. destruct k; simpl; try done; by rewrite lookup_insert. Qed.

(** Whatever the registry holds for a class is what [resolve_type] answers
    for a loaded instance of that class. *)
Lemma resolve_type_registered (w : World) (cls : ModelClass) (T : SynthType) (p : Page) :
  pages (registry w) !! cls = Some T →
  model_class (content_type p) = Some cls →
  resolve_type (Loaded p) w = (Ok T, w).
Proof. intros HT Hcls. unfold resolve_type. run. by rewrite Hcls, HT. Qed.

(** An instance of a class that [pages] does not hold makes [resolve_type]
    raise. *)
Lemma resolve_type_unregistered (w : World) (cls : ModelClass) (p : Page) :
  pages (registry w) !! cls = None →
  model_class (content_type p) = Some cls →
  resolve_type (Loaded p) w = (Raise KeyError, w).
Proof. intros HT Hcls. unfold resolve_type. run. by rewrite Hcls, HT. Qed.

(** C1: a run of [add_app] whose prefix template can be filled returns, and
    for every class it registers as a page or as a form, [resolve_type] on
    a loaded instance whose content type maps to the class returns exactly
    the node type that was synthesized for the class and stored in [pages]. *)
Theorem resolve_type_round_trip (app prefix url_prefix : string) (w : World)
    (Hfmt : ∀ cls, cls ∈ to_register app w → is_Some (node_name app prefix cls)) :
  ∃ w', add_app app prefix url_prefix w = (Ok tt, w')
        ∧ ∀ cls pfx,
            cls ∈ to_register app w →
            str_format prefix (capwords app None) (cls_name cls) = Some pfx →
            let k := classify (bool_decide (cls ∈ snippet_models w)) cls in
            k = FormKind ∨ k = PageKind →
            let T := node_type k cls (pfx +:+ cls_name cls) app pfx in
            pages (registry w') !! cls = Some T
            ∧ T ∈ synthesized w'
            ∧ ∀ p, model_class (content_type p) = Some cls →
                   resolve_type (Loaded p) w' = (Ok T, w').
Proof.
  pose (I := λ (r : gset ModelClass) (w0 : World),
          ∀ cls pfx,
            cls ∈ r →
            str_format prefix (capwords app None) (cls_name cls) = Some pfx →
            let k := classify (bool_decide (cls ∈ snippet_models w)) cls in
            k = FormKind ∨ k = PageKind →
            let T := node_type k cls (pfx +:+ cls_name cls) app pfx in
            pages (registry w0) !! cls = Some T ∧ T ∈ synthesized w0).
  destruct (register_loop_invariant app prefix url_prefix (snippet_models w) I
              (to_register app w) Hfmt) with (registered := (∅ : gset ModelClass)) (w := w)
    as (w' & Hrun & HI).
  - intros r w0 c pfx Hc Hnew Hpfx HI0 cls pfx' Hcls Hpfx' k Hk T.
    simpl. rewrite pages_registry_after.
    destruct (decide (c = cls)) as [->|Hne].
    + assert (pfx' = pfx) as -> by congruence.
      fold k. split.
      * destruct Hk as [-> | ->]; by rewrite ?decide_True.
      * apply elem_of_app. right. unfold types_created. fold k. left.
    + assert (Hold : cls ∈ r) by set_solver.
      destruct (HI0 cls pfx' Hold Hpfx' Hk) as [Hpages HT]. split.
      * destruct (classify _ c); by rewrite ?decide_False.
      * apply elem_of_app. by left.
  - intros cls pfx Hcls. set_solver.
  - exists w'. split.
    + unfold add_app. run. by rewrite Hrun.
    + intros cls pfx Hcls Hpfx k Hk T.
      destruct (HI cls pfx) as [Hpages HT]; [set_solver|done..|].
      split; [done|]. split; [done|].
      intros p Hp. by apply resolve_type_registered with cls.
Qed.

(** C8: a run of [add_app] whose prefix template can be filled returns, and
    however often a class occurs in the list of snippet and app models, the
    run registers it exactly once.  It synthesizes exactly one schema type
    for the class (and none for a class that is not in the list): the types
    synthesized for the class are those from before the run followed by its
    node type.  The registry holds the entry of that one registration: the
    node type under the class for a snippet, a page or a form, the mutation
    type under the node name for a form, and the display name of a setting
    and the node name of a generic record as keys of their buckets; when no
    other class of the list shares the node name or the display name of the
    class, every entry of the registration is as it was written.  From the
    second occurrence on, the seen-guard makes [_register_model] leave the
    seen-set and the world as they are. *)
Theorem add_app_registers_once (app prefix url_prefix : string) (w : World)
    (Hfmt : ∀ cls, cls ∈ to_register app w → is_Some (node_name app prefix cls)) :
  ∃ w', add_app app prefix url_prefix w = (Ok tt, w')
        ∧ (∀ cls, cls ∈ to_register app w →
                  registrations cls w' = S (registrations cls w))
        ∧ (∀ cls, cls ∉ to_register app w →
                  registrations cls w' = registrations cls w)
        ∧ (∀ cls pfx,
             cls ∈ to_register app w →
             str_format prefix (capwords app None) (cls_name cls) = Some pfx →
             let k := classify (bool_decide (cls ∈ snippet_models w)) cls in
             let node := pfx +:+ cls_name cls in
             let T := node_type k cls node app pfx in
             filter (λ tp, tp_model tp = Some cls) (synthesized w')
             = filter (λ tp, tp_model tp = Some cls) (synthesized w) ++ [T]
             ∧ entries_kept (registry w') k cls node T (mutation_type node url_prefix)
             ∧ ((∀ x, x ∈ to_register app w → x ≠ cls →
                      node_name app prefix x ≠ Some node
                      ∧ capfirst (verbose_name x) ≠ capfirst (verbose_name cls)) →
                registered_entries (registry w') k cls node T
                                   (mutation_type node url_prefix)))
        ∧ (∀ registered cls snippet w0,
             cls ∈ registered →
             _register_model registered cls snippet app prefix url_prefix w0
             = (Ok registered, w0)).
Proof.
  pose (I := λ (r : gset ModelClass) (w0 : World),
          ∀ cls,
            registrations cls w0
            = (registrations cls w + if decide (cls ∈ r) then 1 else 0)%nat
            ∧ (cls ∉ r →
               filter (λ tp, tp_model tp = Some cls) (synthesized w0)
               = filter (λ tp, tp_model tp = Some cls) (synthesized w))
            ∧ ∀ pfx,
                cls ∈ r →
                str_format prefix (capwords app None) (cls_name cls) = Some pfx →
                let k := classify (bool_decide (cls ∈ snippet_models w)) cls in
                let node := pfx +:+ cls_name cls in
                let T := node_type k cls node app pfx in
                filter (λ tp, tp_model tp = Some cls) (synthesized w0)
                = filter (λ tp, tp_model tp = Some cls) (synthesized w) ++ [T]
                ∧ entries_kept (registry w0) k cls node T (mutation_type node url_prefix)
                ∧ ((∀ x, x ∈ r → x ≠ cls →
                         node_name app prefix x ≠ Some node
                         ∧ capfirst (verbose_name x) ≠ capfirst (verbose_name cls)) →
                   registered_entries (registry w0) k cls node T
                                      (mutation_type node url_prefix))).
  destruct (register_loop_invariant app prefix url_prefix (snippet_models w) I
              (to_register app w) Hfmt) with (registered := (∅ : gset ModelClass)) (w := w)
    as (w' & Hrun & HI).
  - intros r w0 c pfx Hc Hnew Hpfx HI0 cls.
    destruct (HI0 cls) as (Hcount & Hbefore & Hafter). split; [|split].
    + rewrite registrations_created, Hcount.
      destruct (decide (cls = c)) as [->|Hne].
      * rewrite decide_False by done. rewrite decide_True by set_solver. lia.
      * destruct (decide (cls ∈ r)) as [Hin|Hout].
        -- rewrite decide_True by set_solver. lia.
        -- rewrite decide_False by set_solver. lia.
    + intros Hout. rewrite synthesized_created.
      rewrite decide_False by set_solver. rewrite app_nil_r.
      apply Hbefore. set_solver.
    + intros pfx' Hin Hpfx' k node T.
      rewrite synthesized_created.
      destruct (decide (cls = c)) as [->|Hne].
      * assert (pfx' = pfx) as -> by congruence. split; [|split].
        -- by rewrite Hbefore.
        -- apply entries_kept_hit.
        -- intros _. apply registered_entries_hit.
      * assert (Hold : cls ∈ r) by set_solver.
        destruct (Hafter pfx' Hold Hpfx') as (Hsyn & Hkept & Hall).
        split; [|split].
        -- by rewrite Hsyn, app_nil_r.
        -- apply entries_kept_frame; [done|]. exact Hkept.
        -- intros Hothers.
           destruct (Hothers c) as [Hcnode Hcname]; [set_solver|done|].
           apply registered_entries_frame; [done| |done|].
           ++ intros Heq. apply Hcnode. unfold node_name. rewrite Hpfx. simpl.
              by rewrite Heq.
           ++ apply Hall. intros x Hx Hxne. apply Hothers; [set_solver|done].
  - intros cls. split; [|split].
    + rewrite decide_False by set_solver. lia.
    + done.
    + intros pfx Hin. set_solver.
  - exists w'. split; [|split; [|split; [|split]]].
    + unfold add_app. run. by rewrite Hrun.
    + intros cls Hcls. rewrite (proj1 (HI cls)), decide_True by set_solver. lia.
    + intros cls Hcls. rewrite (proj1 (HI cls)), decide_False by set_solver. lia.
    + intros cls pfx Hcls Hpfx k node T.
      destruct (proj2 (proj2 (HI cls)) pfx) as (Hsyn & Hkept & Hall); [set_solver|done|].
      split; [done|]. split; [done|].
      intros Hothers. apply Hall. intros x Hx. apply Hothers. set_solver.
    + intros registered cls snippet w0 Hseen. by apply register_model_seen.
Qed.

(** C2, as amended: take a run of [add_app] whose prefix template can be
    filled, over classes that the registry holds in no bucket outside those
    of their kind (as on a first run, and as on the run for a later app,
    which meets the snippets again), where a form or a generic record of the
    list shares its node name only with classes of its own kind and no two
    settings of the list share a display name.  The run returns, and
    afterwards every class of the list is in exactly the buckets of its
    kind, the kind being decided with the precedence snippet > form > page >
    setting > generic record: [snippets] for a snippet, [pages] for a page,
    [settings] for a setting, [genericRecords] for a generic record, and
    both [pages] (by class) and [forms] (by node name) for a form.  So each
    class is in exactly one bucket, except a form, which is in two. *)
Theorem buckets_follow_classification (app prefix url_prefix : string) (w : World)
    (Hfmt : ∀ cls, cls ∈ to_register app w → is_Some (node_name app prefix cls))
    (Hwithin : ∀ cls b,
        cls ∈ to_register app w →
        b ∈ buckets_holding (registry w) app prefix cls →
        b ∈ expected_buckets (classify (bool_decide (cls ∈ snippet_models w)) cls))
    (Hnode : ∀ c1 c2,
        c1 ∈ to_register app w → c2 ∈ to_register app w →
        node_name app prefix c1 = node_name app prefix c2 →
        classify (bool_decide (c1 ∈ snippet_models w)) c1 = FormKind
        ∨ classify (bool_decide (c1 ∈ snippet_models w)) c1 = GenericRecord →
        classify (bool_decide (c2 ∈ snippet_models w)) c2
        = classify (bool_decide (c1 ∈ snippet_models w)) c1)
    (Hname : ∀ c1 c2,
        c1 ∈ to_register app w → c2 ∈ to_register app w →
        classify (bool_decide (c1 ∈ snippet_models w)) c1 = SettingKind →
        classify (bool_decide (c2 ∈ snippet_models w)) c2 = SettingKind →
        capfirst (verbose_name c1) = capfirst (verbose_name c2) → c1 = c2) :
  ∃ w', add_app app prefix url_prefix w = (Ok tt, w')
        ∧ ∀ cls, cls ∈ to_register app w →
            let k := classify (bool_decide (cls ∈ snippet_models w)) cls in
            buckets_holding (registry w') app prefix cls = expected_buckets k
            ∧ (k ≠ FormKind → length (buckets_holding (registry w') app prefix cls) = 1%nat)
            ∧ (k = FormKind → buckets_holding (registry w') app prefix cls = [Pages; Forms]).
Proof.
  pose (I := λ (r : gset ModelClass) (w0 : World),
          ∀ cls, cls ∈ to_register app w →
            (cls ∈ r →
             ∀ b, appears_in (registry w0) (node_name app prefix cls) cls b
                  = bool_decide
                      (b ∈ expected_buckets
                             (classify (bool_decide (cls ∈ snippet_models w)) cls)))
            ∧ (cls ∉ r →
               ∀ b, appears_in (registry w0) (node_name app prefix cls) cls b = true →
                    b ∈ expected_buckets
                          (classify (bool_decide (cls ∈ snippet_models w)) cls))).
  destruct (register_loop_invariant app prefix url_prefix (snippet_models w) I
              (to_register app w) Hfmt) with (registered := (∅ : gset ModelClass)) (w := w)
    as (w' & Hrun & HI).
  - intros r w0 c pfx Hc Hnew Hpfx HI0 cls Hcls. simpl.
    assert (Hnc : node_name app prefix c = Some (pfx +:+ cls_name c)).
    { unfold node_name. by rewrite Hpfx. }
    destruct (HI0 cls Hcls) as [Hexact Hin_kind].
    assert (Hshared : c ≠ cls →
              node_name app prefix cls = Some (pfx +:+ cls_name c) →
              classify (bool_decide (c ∈ snippet_models w)) c = FormKind
              ∨ classify (bool_decide (c ∈ snippet_models w)) c = GenericRecord →
              classify (bool_decide (cls ∈ snippet_models w)) cls
              = classify (bool_decide (c ∈ snippet_models w)) c).
    { intros _ Heq. apply Hnode; [done..|]. by rewrite Hnc. }
    split.
    + intros Hin b.
      destruct (decide (c = cls)) as [->|Hne].
      * rewrite Hnc. apply appears_in_hit_within. intros b'. rewrite <- Hnc.
        by apply Hin_kind.
      * apply appears_in_exact_kept; [done|by apply Hshared| |].
        -- intros Hkc Hkcls Heq. apply Hne. by apply Hname.
        -- apply Hexact. set_solver.
    + intros Hout.
      assert (Hne : c ≠ cls) by set_solver.
      apply appears_in_within_kept; [done|by apply Hshared|].
      apply Hin_kind. set_solver.
  - intros cls Hcls. split; [set_solver|].
    intros _ b Hb. apply Hwithin; [done|].
    unfold buckets_holding. apply elem_of_List_filter. split; [|done].
    unfold all_buckets.
    destruct b; repeat first [apply list_elem_of_here | apply list_elem_of_further].
  - exists w'. split.
    + unfold add_app. run. by rewrite Hrun.
    + intros cls Hcls k.
      assert (Hk : buckets_holding (registry w') app prefix cls = expected_buckets k).
      { apply buckets_holding_expected. apply (HI cls Hcls). set_solver. }
      rewrite Hk. split; [done|]. split.
      * intros Hform. by destruct k.
      * by intros ->.
Qed.

End DriverTheorems.

(** * Further properties of the queries *)

(** ** More on strings *)

Lemma length_rstrip (c : ascii) (s : string) :
  (String.length (rstrip c s) ≤ String.length s)%nat.
Proof.
  induction s as [|a s IH]; simpl; [done|].
  destruct (rstrip c s) as [|b r]; [destruct (decide (a = c))|]; simpl in *; lia.
Qed.

(** What [rstrip] returns does not end with the stripped character. *)
Lemma rstrip_no_trailing (c : ascii) (s t : string) :
  rstrip c s ≠ t +:+ String c EmptyString.
Proof.
  intros Heq.
  pose proof (rstrip_idempotent c s) as Hidem.
  rewrite Heq, rstrip_append_char in Hidem.
  pose proof (length_rstrip c t) as Hlen.
  rewrite Hidem, length_append in Hlen. simpl in Hlen. lia.
Qed.

Lemma substring_all (s : string) : substring 0 (String.length s) s = s.
Proof. induction s as [|a s IH]; simpl; [done|]. by rewrite IH. Qed.

(** [(p + s)[len(p):]] is [s]. *)
Lemma string_drop_append (p s : string) : string_drop (String.length p) (p +:+ s) = s.
Proof.
  unfold string_drop. induction p as [|a p IH]; simpl.
  - rewrite Nat.sub_0_r. apply substring_all.
  - exact IH.
Qed.

(** [(p + s).startswith(p)] *)
Lemma prefix_append (p s : string) : String.prefix p (p +:+ s) = true.
Proof.
  induction p as [|a p IH]; simpl; [by destruct s|].
  by destruct (ascii_dec a a).
Qed.

Lemma append_nonempty_neq (p s : string) : p ≠ EmptyString → p +:+ s ≠ s.
Proof.
  intros Hp Heq. apply (f_equal String.length) in Heq.
  rewrite length_append in Heq. destruct p; [done|]. simpl in Heq. lia.
Qed.

(** ** The order of the results *)

Global Instance path_le_total : Total path_le.
Proof. intros p q. apply String.leb_total. Qed.

Lemma Sorted_order_by_path (q : QuerySet) : Sorted path_le (rows (order_by_path q)).
Proof. apply Sorted_merge_sort, _. Qed.

Lemma head_List_filter_Some {A} (f : A → bool) (l : list A) (x : A) :
  head (List.filter f l) = Some x → x ∈ l ∧ f x = true.
Proof.
  intros Hhead. apply elem_of_List_filter.
  destruct (List.filter f l) as [|y l'] eqn:E; [done|].
  simpl in Hhead. injection Hhead as ->. left.
Qed.

Lemma head_List_filter_None {A} (f : A → bool) (l : list A) :
  head (List.filter f l) = None ↔ ∀ x, x ∈ l → f x = false.
Proof.
  split.
  - intros Hhead x Hx. destruct (f x) eqn:Hfx; [|done].
    assert (Hin : x ∈ List.filter f l) by by apply elem_of_List_filter.
    destruct (List.filter f l); [by apply not_elem_of_nil in Hin|done].
  - intros Hall. by rewrite List_filter_nil.
Qed.

Section QueryProperties.
Context `{Externals}.

(** The row [resolve_page] hands out, as one filter over the ordered table. *)
Lemma resolve_page_run (info : ResolveInfo) (id : option Z) (url : option string)
    (w : World) (matches : Page → bool) :
  match id, url with
  | Some id, _ => matches = (λ p, (page_id p =? id)%Z)
  | None, Some url => matches = (λ p, bool_decide (url_path p = lookup_path URL_PREFIX url))
  | None, None => False
  end →
  resolve_page info id url w
  = (Ok (head (List.filter
                 (λ p, matches p && page_permitted (context info) p && live p)
                 (rows (objects w)))), w).
Proof.
  intros Hmatches.
  assert (Hfilter : ∀ l : list Page,
             List.filter live (List.filter (page_permitted (context info))
                                           (List.filter matches l))
             = List.filter (λ p, matches p && page_permitted (context info) p && live p) l).
  { induction l as [|p l IH]; simpl; [done|].
    destruct (matches p); simpl; [|done].
    destruct (page_permitted (context info) p); simpl; [|done].
    destruct (live p); simpl; by rewrite IH. }
  unfold resolve_page, mbind, M_bind, bind, mret, M_ret, ret, raise, get_world.
  destruct id as [id|]; [|destruct url as [url|]; [|done]]; subst matches;
    unfold first, qs_live, with_page_permissions, specific, select_related, qs_filter;
    simpl; rewrite Hfilter;
    by destruct (head _).
Qed.

(** X1: [page] answers with a row only if that row is in the table, is live,
    passes the permission filter and carries the requested [id] (or, without
    an [id], the looked-up [url_path]); it answers [None] exactly when no
    such row exists. *)
Theorem page_result_sound_and_complete (info : ResolveInfo) (id : option Z)
    (url : option string) (w : World)
    (Hargs : id ≠ None ∨ url ≠ None) :
  ∃ answer,
    resolve_page info id url w = (Ok answer, w)
    ∧ (∀ page, answer = Some page →
         page ∈ page_table w ∧ live page = true
         ∧ page_permitted (context info) page = true
         ∧ match id, url with
           | Some id, _ => page_id page = id
           | None, Some url => url_path page = lookup_path URL_PREFIX url
           | None, None => False
           end)
    ∧ (answer = None ↔
       ∀ page, page ∈ page_table w → live page = true →
               page_permitted (context info) page = true →
               match id, url with
               | Some id, _ => page_id page ≠ id
               | None, Some url => url_path page ≠ lookup_path URL_PREFIX url
               | None, None => True
               end).
Proof.
  set (matches := match id, url with
                  | Some id, _ => λ p, (page_id p =? id)%Z
                  | None, Some url =>
                      λ p, bool_decide (url_path p = lookup_path URL_PREFIX url)
                  | None, None => λ _, false
                  end).
  assert (Hmatches : ∀ p, matches p = true ↔
            match id, url with
            | Some id, _ => page_id p = id
            | None, Some url => url_path p = lookup_path URL_PREFIX url
            | None, None => False
            end).
  { intros p. unfold matches. destruct id as [id|]; [|destruct url as [url|]].
    - apply Z.eqb_eq.
    - apply bool_decide_eq_true.
    - split; [done|tauto]. }
  eexists. split.
  { apply (resolve_page_run info id url w matches).
    unfold matches. destruct id as [id|]; [done|]. destruct url as [url|]; [done|].
    destruct Hargs; congruence. }
  split.
  - intros page Hpage. apply head_List_filter_Some in Hpage as [Hin Hp].
    apply elem_of_objects in Hin.
    rewrite !andb_true_iff, Hmatches in Hp. tauto.
  - rewrite head_List_filter_None. split.
    + intros Hnone page Hin Hlive Hperm.
      specialize (Hnone page (proj2 (elem_of_objects w page) Hin)).
      rewrite Hlive, Hperm, !andb_true_r in Hnone.
      destruct id as [id|]; [|destruct url as [url|]; [|done]]; intros Heq;
        apply (proj2 (Hmatches page)) in Heq; congruence.
    + intros Hnone page Hin. apply elem_of_objects in Hin.
      destruct (live page) eqn:Hlive; [|by rewrite andb_false_r].
      destruct (page_permitted (context info) page) eqn:Hperm;
        [|by rewrite andb_false_r].
      rewrite !andb_true_r. specialize (Hnone page Hin Hlive Hperm).
      destruct (matches page) eqn:Hm; [|done].
      apply Hmatches in Hm.
      destruct id as [id|]; [|destruct url as [url|]; [|done]]; done.
Qed.

(** X2: the url the schema reports for a page leads back to it.  For a page
    stored under [URL_PREFIX + rest + "/"], where [rest] has no trailing
    slash, [resolve_url_path] reports [rest], and [page(url=rest)] looks up
    the stored [url_path]. *)
Theorem url_path_round_trip (self : Page) (rest : string)
    (Hstored : url_path self = URL_PREFIX +:+ rest +:+ "/")
    (Hrest : rstrip slash rest = rest) :
  resolve_url_path self = rest
  ∧ lookup_path URL_PREFIX (resolve_url_path self) = url_path self.
Proof.
  assert (Hurl : resolve_url_path self = rest).
  { unfold resolve_url_path. rewrite Hstored, prefix_append. simpl.
    rewrite string_drop_append. unfold slash.
    rewrite (rstrip_append_char "/"%char rest). exact Hrest. }
  split; [exact Hurl|].
  rewrite Hurl. unfold lookup_path. by rewrite Hrest, Hstored.
Qed.

(** X3: whatever the stored path, the url [resolve_url_path] reports never
    ends with a slash, and a path outside [URL_PREFIX] is reported whole
    (only its trailing slashes go). *)
Theorem url_path_reported_without_trailing_slash (self : Page) :
  (∀ s, resolve_url_path self ≠ s +:+ "/")
  ∧ rstrip slash (resolve_url_path self) = resolve_url_path self
  ∧ (String.prefix URL_PREFIX (url_path self) = false →
     resolve_url_path self = rstrip slash (url_path self)).
Proof.
  unfold resolve_url_path. split; [|split].
  - intros s. apply rstrip_no_trailing.
  - apply rstrip_idempotent.
  - by intros ->.
Qed.

(** X4: a page stored outside a non-empty [URL_PREFIX] is not found again
    through the url reported for it: [page] always looks under the prefix. *)
Theorem url_path_outside_prefix_no_round_trip (self : Page) (rest : string)
    (Hprefix : URL_PREFIX ≠ EmptyString)
    (Houtside : String.prefix URL_PREFIX (url_path self) = false)
    (Hstored : url_path self = rest +:+ "/")
    (Hrest : rstrip slash rest = rest) :
  lookup_path URL_PREFIX (resolve_url_path self) = URL_PREFIX +:+ url_path self
  ∧ lookup_path URL_PREFIX (resolve_url_path self) ≠ url_path self.
Proof.
  assert (Hurl : resolve_url_path self = rest).
  { unfold resolve_url_path. rewrite Houtside. simpl. rewrite Hstored. unfold slash.
    rewrite (rstrip_append_char "/"%char rest). exact Hrest. }
  assert (Hlookup : lookup_path URL_PREFIX (resolve_url_path self)
                    = URL_PREFIX +:+ url_path self).
  { rewrite Hurl. unfold lookup_path. by rewrite Hrest, Hstored. }
  split; [exact Hlookup|]. rewrite Hlookup. by apply append_nonempty_neq.
Qed.

End QueryProperties.

Section ListingProperties.
Context `{Externals}.

Lemma Sorted_rows_listing (request : Request) (q : QuerySet) :
  Sorted path_le
    (rows (all (order_by_path (qs_live (with_page_permissions request (specific q)))))).
Proof. apply Sorted_order_by_path. Qed.

(** X5: a call of [pages] that returns leaves the world as it is, and its
    rows are ordered by [path]; every row is a live row of the page table
    that passes the permission filter, so a hidden or unpublished page is
    never listed.  Without a [parent], the rows are exactly those pages. *)
Theorem pages_listing (info : ResolveInfo) (parent : option Z) (w w' : World)
    (q : QuerySet)
    (Hrun : resolve_pages info parent w = (Ok q, w')) :
  w' = w
  ∧ Sorted path_le (rows q)
  ∧ (∀ r, r ∈ rows q →
          r ∈ page_table w ∧ live r = true ∧ page_permitted (context info) r = true)
  ∧ (parent = None →
     ∀ r, r ∈ rows q ↔
          r ∈ page_table w ∧ live r = true ∧ page_permitted (context info) r = true).
Proof.
  unfold resolve_pages, mbind, M_bind, bind, mret, M_ret, ret, raise, get_world in Hrun.
  destruct parent as [parent|].
  - destruct (first _) as [parent_page|]; [|done].
    injection Hrun as <- <-. split; [done|]. split; [apply Sorted_rows_listing|].
    split; [|done].
    intros r Hr. apply elem_of_rows_listing in Hr as (Hr & Hperm & Hlive).
    unfold child_of, qs_filter in Hr. simpl in Hr.
    apply elem_of_List_filter in Hr as [Hr _].
    rewrite rows_select_related_loop, elem_of_objects in Hr. done.
  - injection Hrun as <- <-. split; [done|]. split; [apply Sorted_rows_listing|].
    assert (Hrows : ∀ r,
      r ∈ rows (all (order_by_path (qs_live (with_page_permissions (context info)
             (specific (foldl (λ query pf, select_related pf query) (objects w)
                (elements (page_prefetch_fields (registry w)
                           ∩ selection_names info)))))))) ↔
      r ∈ page_table w ∧ live r = true ∧ page_permitted (context info) r = true).
    { intros r. rewrite elem_of_rows_listing, rows_select_related_loop, elem_of_objects.
      tauto. }
    split; [|intros _; exact Hrows].
    intros r Hr. by apply Hrows.
Qed.

(** X6: [showInMenus] always returns, leaves the world as it is and joins
    nothing; its rows, ordered by [path], are exactly the live pages of the
    table that are flagged for menus and pass the permission filter. *)
Theorem show_in_menus_listing (info : ResolveInfo) (w : World) :
  ∃ q, resolve_show_in_menus info w = (Ok q, w)
       ∧ related q = []
       ∧ Sorted path_le (rows q)
       ∧ ∀ r, r ∈ rows q ↔
              r ∈ page_table w ∧ show_in_menus r = true ∧ live r = true
              ∧ page_permitted (context info) r = true.
Proof.
  eexists. split; [reflexivity|]. split; [reflexivity|].
  split; [apply Sorted_order_by_path|].
  intros r. unfold order_by_path, qs_live, with_page_permissions, qs_filter. simpl.
  rewrite merge_sort_Permutation, !elem_of_List_filter.
  rewrite (merge_sort_Permutation path_le (page_table w)). tauto.
Qed.

(** X7: [resolve_type] on a bare id answers as it does on the loaded page of
    that id, provided the page's content type still has a model class; an
    id that no page carries raises [KeyError]. *)
Theorem resolve_type_bare_id (i : Z) (w : World) :
  match first (qs_filter (λ p, (page_id p =? i)%Z) (objects w)) with
  | Some p =>
      page_id p = i
      ∧ (is_Some (model_class (content_type p)) →
         resolve_type (BareId i) w = resolve_type (Loaded p) w)
  | None => resolve_type (BareId i) w = (Raise KeyError, w)
  end.
Proof.
  unfold resolve_type, mbind, M_bind, bind, mret, M_ret, ret, raise, get_world, specific.
  destruct (first _) as [p|] eqn:Hfirst; [|done]. split.
  - apply head_List_filter_Some in Hfirst as [_ Hid]. by apply Z.eqb_eq.
  - intros [cls Hcls]. unfold specific_class. by rewrite Hcls.
Qed.

(** X8: the form mutation normalises trailing slashes of its [url] like
    [page] does: [url] and [url + "/"] run the same mutation. *)
Theorem form_mutation_trailing_slash (_node url_prefix : string) (info : ResolveInfo)
    (url : string) (values : GenericScalar) (w : World) :
  mutate _node url_prefix info (url +:+ "/") values w
  = mutate _node url_prefix info url values w.
Proof.
  unfold mutate, lookup_path, slash.
  by rewrite (rstrip_append_char "/"%char url).
Qed.

(** X9: when no live, permitted page is stored under the looked-up path, or
    the page found there is not a form page, the mutation raises
    [AttributeError] and stores nothing. *)
Theorem form_mutation_without_form_page (_node url_prefix : string)
    (info : ResolveInfo) (url : string) (values : GenericScalar) (w : World)
    (Hnoform :
       match first (qs_live (with_page_permissions (context info)
                      (specific (qs_filter
                         (λ p, bool_decide (url_path p = lookup_path url_prefix url))
                         (objects w))))) with
       | Some instance => get_form instance values (user (context info)) = None
       | None => True
       end) :
  mutate _node url_prefix info url values w = (Raise AttributeError, w).
Proof.
  unfold mutate, mbind, M_bind, bind, mret, M_ret, ret, raise, get_world.
  destruct (first _) as [instance|]; [|done]. by rewrite Hnoform.
Qed.

(** X10: the mutation looks its own type up only after the submission was
    handled.  When [registry.forms] has no entry for the node, the mutation
    raises [KeyError]; a valid submission has been stored by then, an
    invalid one leaves the world as it was. *)
Theorem form_mutation_unregistered_node (_node url_prefix : string)
    (info : ResolveInfo) (url : string) (values : GenericScalar) (w : World)
    (instance : Page) (form : Form)
    (Hinstance :
       first (qs_live (with_page_permissions (context info)
                (specific (qs_filter
                   (λ p, bool_decide (url_path p = lookup_path url_prefix url))
                   (objects w))))) = Some instance)
    (Hform : get_form instance values (user (context info)) = Some form)
    (Hmissing : forms (registry w) !! _node = None) :
  mutate _node url_prefix info url values w
  = (Raise KeyError,
     if is_valid form
     then set_form_submissions (λ l, l ++ [(instance, form)]) w
     else w).
Proof.
  unfold mutate, registry_forms, process_form_submission. run.
  rewrite Hinstance, Hform. destruct (is_valid form); simpl; by rewrite Hmissing.
Qed.

End ListingProperties.

(** * Further properties of the registration *)

Section StreamFieldProperties.
Context `{Externals}.

Lemma add_streamfield_keys (node app prefix : string) (dp : DictParams) (f : Field)
    (key : string) :
  key ∈ dom (dp_entries (add_streamfield node app prefix dp f)) ↔
  key ∈ dom (dp_entries dp)
  ∨ (is_Some (stream_block f)
     ∧ (key = field_name f ∨ key = "resolve_" +:+ field_name f)).
Proof.
  unfold add_streamfield. destruct (stream_block f) as [blocks|]; simpl.
  - rewrite !dom_insert, !elem_of_union, !elem_of_singleton.
    split; [|naive_solver]. intros [?|[?|?]]; eauto 6.
  - split; [by left|]. intros [?|[[? ?] _]]; done.
Qed.

(** X11: [_add_streamfields] leaves the [Meta] entry alone and adds, for
    every stream field of the model and for nothing else, the two keys
    [<name>] and [resolve_<name>]; a model without stream fields gets the
    parameters back unchanged. *)
Theorem add_streamfields_keys (cls : ModelClass) (node app prefix : string)
    (dp : DictParams) :
  dp_Meta (_add_streamfields cls node dp app prefix) = dp_Meta dp
  ∧ (∀ key,
       key ∈ dom (dp_entries (_add_streamfields cls node dp app prefix)) ↔
       key ∈ dom (dp_entries dp)
       ∨ ∃ f, f ∈ meta_fields cls ∧ is_Some (stream_block f)
              ∧ (key = field_name f ∨ key = "resolve_" +:+ field_name f))
  ∧ ((∀ f, f ∈ meta_fields cls → stream_block f = None) →
     _add_streamfields cls node dp app prefix = dp).
Proof.
  split; [apply dp_Meta_add_streamfields|]. split; [|apply add_streamfields_none].
  unfold _add_streamfields. revert dp.
  induction (meta_fields cls) as [|f fs IH]; intros dp key; simpl.
  - split; [by left|]. intros [?|(f & Hf & _)]; [done|]. by apply not_elem_of_nil in Hf.
  - rewrite IH, add_streamfield_keys. split.
    + intros [[?|[? ?]]|(g & Hg & ? & ?)].
      * by left.
      * right. exists f. split; [left|done].
      * right. exists g. split; [by right|done].
    + intros [?|(g & Hg & ? & ?)]; [by left; left|].
      apply elem_of_cons in Hg as [->|Hg]; [left; right; done|].
      right. exists g. done.
Qed.

End StreamFieldProperties.

Section DriverFurther.
Context `{Externals}.

Lemma for_each_app {A S} (body : S → A → M S) (s : S) (l1 l2 : list A) (w : World) :
  for_each body s (l1 ++ l2) w
  = match for_each body s l1 w with
    | (Ok s', w') => for_each body s' l2 w'
    | (Raise e, w') => (Raise e, w')
    end.
Proof.
  revert s w. induction l1 as [|x l1 IH]; intros s w; simpl; [done|].
  unfold mbind, M_bind, bind. destruct (body s x w) as [[s'|e] w']; [apply IH|done].
Qed.

Lemma to_register_ext (app : string) (w1 w2 : World) :
  snippet_models w1 = snippet_models w2 → content_types w1 = content_types w2 →
  to_register app w1 = to_register app w2.
Proof. unfold to_register. by intros -> ->. Qed.

Lemma snippet_in_to_register (app : string) (w : World) (cls : ModelClass) :
  cls ∈ snippet_models w → cls ∈ to_register app w.
Proof.
  intros Hcls. unfold to_register. apply list_elem_of_omap. exists (Some cls).
  split; [|done]. apply elem_of_app. left. by apply list_elem_of_fmap_2.
Qed.

(** A run of [add_app] whose templates fill: it returns, touches neither
    the tables nor wagtail's snippet list, and synthesizes one type for
    every class of its list. *)
Lemma add_app_run (app prefix url_prefix : string) (w : World) :
  (∀ cls, cls ∈ to_register app w → is_Some (node_name app prefix cls)) →
  ∃ w', add_app app prefix url_prefix w = (Ok tt, w')
        ∧ snippet_models w' = snippet_models w
        ∧ content_types w' = content_types w
        ∧ page_table w' = page_table w
        ∧ form_submissions w' = form_submissions w
        ∧ ∀ cls, registrations cls w'
                 = (registrations cls w
                    + if decide (cls ∈ to_register app w) then 1 else 0)%nat.
Proof.
  intros Hfmt.
  pose (I := λ (r : gset ModelClass) (w0 : World),
          snippet_models w0 = snippet_models w
          ∧ content_types w0 = content_types w
          ∧ page_table w0 = page_table w
          ∧ form_submissions w0 = form_submissions w
          ∧ ∀ cls, registrations cls w0
                   = (registrations cls w + if decide (cls ∈ r) then 1 else 0)%nat).
  destruct (register_loop_invariant app prefix url_prefix (snippet_models w) I
              (to_register app w) Hfmt) with (registered := (∅ : gset ModelClass)) (w := w)
    as (w' & Hrun & HI).
  - intros r w0 c pfx Hc Hnew Hpfx (? & ? & ? & ? & HI0).
    repeat split; try done. intros cls.
    rewrite registrations_created, HI0.
    destruct (decide (cls = c)) as [->|Hne].
    + rewrite decide_False by done. rewrite decide_True by set_solver. lia.
    + destruct (decide (cls ∈ r)) as [Hin|Hout].
      * rewrite decide_True by set_solver. lia.
      * rewrite decide_False by set_solver. lia.
  - repeat split; try done.
    all: intros cls; rewrite decide_False by set_solver; lia.
  - destruct HI as (? & ? & ? & ? & HI). exists w'.
    split; [unfold add_app; run; by rewrite Hrun|].
    repeat split; try done. intros cls. rewrite HI.
    destruct (decide (cls ∈ to_register app w)) as [Hin|Hout].
    + rewrite decide_True by set_solver. done.
    + rewrite decide_False by set_solver. done.
Qed.

(** X12: the seen-guard lives for one call only.  A second [add_app] over the
    same app walks the same list and synthesizes every class of it again,
    so two calls leave two schema types per class. *)
Theorem add_app_twice_registers_twice (app prefix url_prefix : string) (w : World)
    (Hfmt : ∀ cls, cls ∈ to_register app w → is_Some (node_name app prefix cls)) :
  ∃ w1 w2,
    add_app app prefix url_prefix w = (Ok tt, w1)
    ∧ add_app app prefix url_prefix w1 = (Ok tt, w2)
    ∧ to_register app w1 = to_register app w
    ∧ ∀ cls, cls ∈ to_register app w →
             registrations cls w2 = S (S (registrations cls w)).
Proof.
  destruct (add_app_run app prefix url_prefix w Hfmt)
    as (w1 & Hrun1 & Hsn & Hct & _ & _ & Hcount1).
  assert (Hlist : to_register app w1 = to_register app w) by by apply to_register_ext.
  destruct (add_app_run app prefix url_prefix w1) as (w2 & Hrun2 & _ & _ & _ & _ & Hcount2).
  { rewrite Hlist. exact Hfmt. }
  exists w1, w2. repeat split; try done.
  intros cls Hcls. rewrite Hcount2, Hcount1, Hlist, !decide_True by done. lia.
Qed.

(** X13: a template that cannot be filled stops the run where it is, without
    rollback.  When the list is [before ++ cls :: after], the template fills
    for the classes of [before] and not for [cls], [add_app] raises, and in
    the world it leaves behind the classes of [before] are synthesized and
    no other class is. *)
Theorem add_app_template_error (app prefix url_prefix : string) (w : World)
    (before after : list ModelClass) (cls : ModelClass)
    (Hlist : to_register app w = before ++ cls :: after)
    (Hbefore : ∀ c, c ∈ before → is_Some (node_name app prefix c))
    (Hcls : node_name app prefix cls = None) :
  ∃ w', add_app app prefix url_prefix w = (Raise FormatError, w')
        ∧ ∀ c, registrations c w'
               = (registrations c w + if decide (c ∈ before) then 1 else 0)%nat.
Proof.
  pose (I := λ (r : gset ModelClass) (w0 : World),
          ∀ c, registrations c w0
               = (registrations c w + if decide (c ∈ r) then 1 else 0)%nat).
  destruct (register_loop_invariant app prefix url_prefix (snippet_models w) I
              before Hbefore) with (registered := (∅ : gset ModelClass)) (w := w)
    as (w' & Hrun & HI).
  - intros r w0 c pfx Hc Hnew Hpfx HI0 c'.
    rewrite registrations_created, HI0.
    destruct (decide (c' = c)) as [->|Hne].
    + rewrite decide_False by done. rewrite decide_True by set_solver. lia.
    + destruct (decide (c' ∈ r)) as [Hin|Hout].
      * rewrite decide_True by set_solver. lia.
      * rewrite decide_False by set_solver. lia.
  - intros c. rewrite decide_False by set_solver. lia.
  - exists w'. split.
    + unfold add_app. run. rewrite Hlist, for_each_app, Hrun. simpl.
      unfold mbind, M_bind, bind.
      rewrite register_model_format_error; [done| |].
      * intros Hin. assert (Hin' : cls ∈ before) by set_solver.
        apply Hbefore in Hin'. rewrite Hcls in Hin'. by destruct Hin'.
      * unfold node_name in Hcls. by destruct (str_format _ _ _).
    + intros c. rewrite HI.
      destruct (decide (c ∈ before)) as [Hin|Hout].
      * by rewrite decide_True by set_solver.
      * by rewrite decide_False by set_solver.
Qed.

(** X14: [add_app] writes [pages] for the classes it registers as page or
    form and for no other class.  The entry of any other class, be it
    outside the list or a snippet, setting or generic record of the list,
    is what it was; if there was none, [resolve_type] on an instance of the
    class still raises [KeyError] after the run, even when the class is a
    page model that wagtail lists as a snippet. *)
Theorem add_app_leaves_other_pages (app prefix url_prefix : string) (w : World)
    (Hfmt : ∀ cls, cls ∈ to_register app w → is_Some (node_name app prefix cls)) :
  ∃ w', add_app app prefix url_prefix w = (Ok tt, w')
        ∧ ∀ cls,
            let k := classify (bool_decide (cls ∈ snippet_models w)) cls in
            cls ∉ to_register app w ∨ (k ≠ FormKind ∧ k ≠ PageKind) →
            pages (registry w') !! cls = pages (registry w) !! cls
            ∧ (pages (registry w) !! cls = None →
               ∀ p, model_class (content_type p) = Some cls →
                    resolve_type (Loaded p) w' = (Raise KeyError, w')).
Proof.
  pose (I := λ (r : gset ModelClass) (w0 : World),
          ∀ cls,
            let k := classify (bool_decide (cls ∈ snippet_models w)) cls in
            cls ∉ to_register app w ∨ (k ≠ FormKind ∧ k ≠ PageKind) →
            pages (registry w0) !! cls = pages (registry w) !! cls).
  destruct (register_loop_invariant app prefix url_prefix (snippet_models w) I
              (to_register app w) Hfmt) with (registered := (∅ : gset ModelClass)) (w := w)
    as (w' & Hrun & HI).
  - intros r w0 c pfx Hc Hnew Hpfx HI0 cls k Hother. simpl.
    rewrite pages_registry_after, <- (HI0 cls Hother).
    destruct (classify _ c) eqn:Hk; try done;
      (rewrite decide_False; [done|]); intros ->; fold k in Hk;
      destruct Hother as [?|[? ?]]; done.
  - by intros cls k Hother.
  - exists w'. split; [unfold add_app; run; by rewrite Hrun|].
    intros cls k Hother. split; [by apply HI|].
    intros Hnone p Hp. apply resolve_type_unregistered with cls; [|done].
    by rewrite (HI cls Hother).
Qed.

Lemma prefetch_registry_after (k : Kind) (x : ModelClass) (node : string)
    (tp tpm : SynthType) (r : Registry) (name : string) :
  name ∈ page_prefetch_fields (registry_after k x node tp tpm r) ↔
  name ∈ page_prefetch_fields r
  ∨ ((k = FormKind ∨ k = PageKind) ∧ name = lower (cls_name x)).
Proof.
  destruct k; simpl; rewrite ?elem_of_union, ?elem_of_singleton; naive_solver.
Qed.

(** X15: after a run of [add_app], [page_prefetch_fields] holds what it held
    before and the lower-cased names of the classes registered as page or
    form, nothing else; and a [pages] query that selects a field whose
    underscore form is such a name joins it. *)
Theorem add_app_prefetch_fields (app prefix url_prefix : string) (w : World)
    (Hfmt : ∀ cls, cls ∈ to_register app w → is_Some (node_name app prefix cls)) :
  ∃ w', add_app app prefix url_prefix w = (Ok tt, w')
        ∧ (∀ name,
             name ∈ page_prefetch_fields (registry w') ↔
             name ∈ page_prefetch_fields (registry w)
             ∨ ∃ cls, cls ∈ to_register app w
                      ∧ (let k := classify (bool_decide (cls ∈ snippet_models w)) cls in
                         k = FormKind ∨ k = PageKind)
                      ∧ name = lower (cls_name cls))
        ∧ (∀ info cls field,
             cls ∈ to_register app w →
             (let k := classify (bool_decide (cls ∈ snippet_models w)) cls in
              k = FormKind ∨ k = PageKind) →
             SelField field ∈ selections info →
             camelcase_to_underscore field = lower (cls_name cls) →
             ∃ q, resolve_pages info None w' = (Ok q, w')
                  ∧ lower (cls_name cls) ∈ related q).
Proof.
  pose (I := λ (r : gset ModelClass) (w0 : World),
          ∀ name,
            name ∈ page_prefetch_fields (registry w0) ↔
            name ∈ page_prefetch_fields (registry w)
            ∨ ∃ cls, cls ∈ r ∧ cls ∈ to_register app w
                     ∧ (let k := classify (bool_decide (cls ∈ snippet_models w)) cls in
                        k = FormKind ∨ k = PageKind)
                     ∧ name = lower (cls_name cls)).
  destruct (register_loop_invariant app prefix url_prefix (snippet_models w) I
              (to_register app w) Hfmt) with (registered := (∅ : gset ModelClass)) (w := w)
    as (w' & Hrun & HI).
  - intros r w0 c pfx Hc Hnew Hpfx HI0 name. simpl.
    rewrite prefetch_registry_after, (HI0 name). split.
    + intros [[?|(cls & ? & ? & ? & ?)]|[Hk ->]].
      * by left.
      * right. exists cls. repeat split; try done. set_solver.
      * right. exists c. repeat split; try done. set_solver.
    + intros [?|(cls & Hin & ? & Hk & ->)]; [by left; left|].
      apply elem_of_union in Hin as [Hin|Hin].
      * apply elem_of_singleton in Hin as ->. by right.
      * left. right. exists cls. done.
  - intros name. split; [by left|]. intros [?|(cls & ? & _)]; [done|set_solver].
  - assert (Hfields : ∀ name,
             name ∈ page_prefetch_fields (registry w') ↔
             name ∈ page_prefetch_fields (registry w)
             ∨ ∃ cls, cls ∈ to_register app w
                      ∧ (let k := classify (bool_decide (cls ∈ snippet_models w)) cls in
                         k = FormKind ∨ k = PageKind)
                      ∧ name = lower (cls_name cls)).
    { intros name. rewrite (HI name). split.
      - intros [?|(cls & ? & ? & ? & ?)]; [by left|]. right. by exists cls.
      - intros [?|(cls & ? & ? & ?)]; [by left|]. right. exists cls.
        repeat split; try done. set_solver. }
    exists w'. split; [unfold add_app; run; by rewrite Hrun|]. split; [exact Hfields|].
    intros info cls field Hcls Hk Hsel Hname.
    eexists. split; [reflexivity|].
    rewrite related_listing, related_select_related_loop, related_objects. simpl.
    apply elem_of_elements, elem_of_intersection. split.
    + apply Hfields. right. by exists cls.
    + apply elem_of_selection_names. exists field. split; [done|by left].
Qed.

End DriverFurther.

Section RegistryLookups.
Context `{Externals}.

(** X16: what a run of [add_app] registered can be looked up afterwards.
    When the classes of the list differ pairwise in node name and in display
    name, then after the run a snippet is found in [snippets] and, by node
    name, in [snippets_by_name], both holding its node type; a form is
    found in [pages] with its node type and, by node name, in [forms] with
    its mutation type; a page in [pages]; a setting under its display name
    in [settings]; a generic record by node name in [django]. *)
Theorem add_app_lookup_after_registration (app prefix url_prefix : string) (w : World)
    (Hfmt : ∀ cls, cls ∈ to_register app w → is_Some (node_name app prefix cls))
    (Hnode : ∀ c1 c2, c1 ∈ to_register app w → c2 ∈ to_register app w →
                      node_name app prefix c1 = node_name app prefix c2 → c1 = c2)
    (Hname : ∀ c1 c2, c1 ∈ to_register app w → c2 ∈ to_register app w →
                      capfirst (verbose_name c1) = capfirst (verbose_name c2) → c1 = c2) :
  ∃ w', add_app app prefix url_prefix w = (Ok tt, w')
        ∧ ∀ cls pfx,
            cls ∈ to_register app w →
            str_format prefix (capwords app None) (cls_name cls) = Some pfx →
            let k := classify (bool_decide (cls ∈ snippet_models w)) cls in
            let node := pfx +:+ cls_name cls in
            registered_entries (registry w') k cls node
                               (node_type k cls node app pfx)
                               (mutation_type node url_prefix).
Proof.
  pose (I := λ (r : gset ModelClass) (w0 : World),
          ∀ cls pfx,
            cls ∈ r → cls ∈ to_register app w →
            str_format prefix (capwords app None) (cls_name cls) = Some pfx →
            let k := classify (bool_decide (cls ∈ snippet_models w)) cls in
            let node := pfx +:+ cls_name cls in
            registered_entries (registry w0) k cls node
                               (node_type k cls node app pfx)
                               (mutation_type node url_prefix)).
  destruct (register_loop_invariant app prefix url_prefix (snippet_models w) I
              (to_register app w) Hfmt) with (registered := (∅ : gset ModelClass)) (w := w)
    as (w' & Hrun & HI).
  - intros r w0 c pfx Hc Hnew Hpfx HI0 cls pfx' Hin Hcls Hpfx' k node. simpl.
    destruct (decide (c = cls)) as [->|Hne].
    + assert (pfx' = pfx) as -> by congruence. apply registered_entries_hit.
    + apply registered_entries_frame; [done| | |].
      * intros Heq. apply Hne. apply Hnode; [done..|].
        unfold node_name. rewrite Hpfx, Hpfx'. simpl. by rewrite Heq.
      * intros Heq. apply Hne. by apply Hname.
      * apply HI0; [set_solver|done..].
  - intros cls pfx Hin. set_solver.
  - exists w'. split; [unfold add_app; run; by rewrite Hrun|].
    intros cls pfx Hcls Hpfx k node. apply HI; [set_solver|done..].
Qed.

Lemma forms_registry_after (k : Kind) (x : ModelClass) (node : string)
    (tp tpm : SynthType) (r : Registry) (n : string) :
  forms (registry_after k x node tp tpm r) !! n
  = match k with
    | FormKind => if decide (node = n) then Some tpm else forms r !! n
    | _ => forms r !! n
    end.
Proof. destruct k; simpl; try done; by rewrite lookup_insert. Qed.

(** X17: after a run of [add_app], [forms] holds the mutation type of every
    form class of the list under its node name, whatever other classes
    share that name; and executing that mutation on a form page it finds
    returns a payload of this very type, ["OK"] or ["FAIL"] by the form's
    verdict. *)
Theorem add_app_registers_form_mutations (app prefix url_prefix : string) (w : World)
    (Hfmt : ∀ cls, cls ∈ to_register app w → is_Some (node_name app prefix cls)) :
  ∃ w', add_app app prefix url_prefix w = (Ok tt, w')
        ∧ ∀ cls node,
            cls ∈ to_register app w →
            node_name app prefix cls = Some node →
            classify (bool_decide (cls ∈ snippet_models w)) cls = FormKind →
            forms (registry w') !! node = Some (mutation_type node url_prefix)
            ∧ dp_entries (tp_dict (mutation_type node url_prefix)) !! "mutate"
              = Some (MutateFn node url_prefix)
            ∧ ∀ info url values instance form,
                first (qs_live (with_page_permissions (context info)
                         (specific (qs_filter
                            (λ p, bool_decide (url_path p = lookup_path url_prefix url))
                            (objects w'))))) = Some instance →
                get_form instance values (user (context info)) = Some form →
                ∃ payload w'',
                  mutate node url_prefix info url values w' = (Ok payload, w'')
                  ∧ payload_type payload = mutation_type node url_prefix
                  ∧ result payload = if is_valid form then "OK" else "FAIL".
Proof.
  pose (I := λ (r : gset ModelClass) (w0 : World),
          ∀ cls node,
            cls ∈ r → cls ∈ to_register app w →
            node_name app prefix cls = Some node →
            classify (bool_decide (cls ∈ snippet_models w)) cls = FormKind →
            forms (registry w0) !! node = Some (mutation_type node url_prefix)).
  destruct (register_loop_invariant app prefix url_prefix (snippet_models w) I
              (to_register app w) Hfmt) with (registered := (∅ : gset ModelClass)) (w := w)
    as (w' & Hrun & HI).
  - intros r w0 c pfx Hc Hnew Hpfx HI0 cls node Hin Hcls Hnode Hk. simpl.
    rewrite forms_registry_after.
    destruct (decide (c = cls)) as [->|Hne].
    + unfold node_name in Hnode. rewrite Hpfx in Hnode. simpl in Hnode.
      injection Hnode as <-. by rewrite Hk, decide_True.
    + assert (Hold : forms (registry w0) !! node = Some (mutation_type node url_prefix)).
      { apply (HI0 cls); [set_solver|done..]. }
      destruct (classify _ c); try done.
      destruct (decide (pfx +:+ cls_name c = node)) as [->|?]; done.
  - intros cls node Hin. set_solver.
  - exists w'. split; [unfold add_app; run; by rewrite Hrun|].
    intros cls node Hcls Hnode Hk.
    assert (Hforms : forms (registry w') !! node = Some (mutation_type node url_prefix)).
    { apply (HI cls); [set_solver|done..]. }
    split; [exact Hforms|]. split; [done|].
    intros info url values instance form Hinstance Hform.
    rewrite (mutate_found node url_prefix info url values w' instance form
               (mutation_type node url_prefix) Hinstance Hform Hforms).
    destruct (is_valid form); eauto.
Qed.

Lemma add_apps_loop (settings : GraphqlSettings) (url_prefix : string)
    (apps : list string) :
  ∀ w,
    (∀ a, a ∈ apps → ∀ cls, cls ∈ to_register a w →
          is_Some (node_name a (app_prefix settings a) cls)) →
    ∃ w', for_each (λ _ app, add_app app (app_prefix settings app) url_prefix) tt apps w
          = (Ok tt, w')
          ∧ snippet_models w' = snippet_models w
          ∧ content_types w' = content_types w
          ∧ ∀ cls, registrations cls w'
                   = (registrations cls w
                      + length (filter (λ a, cls ∈ to_register a w) apps))%nat.
Proof.
  induction apps as [|a apps IH]; intros w Hfmt.
  - exists w. repeat split; try done.
    all: intros cls; simpl; lia.
  - destruct (add_app_run a (app_prefix settings a) url_prefix w)
      as (w1 & Hrun1 & Hsn1 & Hct1 & _ & _ & Hcount1).
    { apply Hfmt. left. }
    assert (Hlists : ∀ a', to_register a' w1 = to_register a' w)
      by (intros a'; by apply to_register_ext).
    destruct (IH w1) as (w' & Hrun & Hsn & Hct & Hcount).
    { intros a' Ha' cls Hcls. rewrite Hlists in Hcls. apply Hfmt; [by right|done]. }
    exists w'. split.
    { simpl. unfold mbind, M_bind, bind. rewrite Hrun1. exact Hrun. }
    split; [congruence|]. split; [congruence|].
    intros cls. rewrite Hcount, Hcount1, filter_cons.
    rewrite (list_filter_iff (λ a0, cls ∈ to_register a0 w1)
                             (λ a0, cls ∈ to_register a0 w)).
    2: { intros a'. by rewrite Hlists. }
    destruct (decide (cls ∈ to_register a w)); simpl; lia.
Qed.

(** X18: [add_apps_with_settings] runs one registration pass per configured
    app, after one for the settings app when the settings registry is not
    empty, each with a seen-set of its own.  A class is synthesized once for
    every pass whose list holds it; a snippet model is in every list, so it
    gets one schema type per pass. *)
Theorem add_apps_registers_per_app (settings_registry : bool)
    (settings : GraphqlSettings) (url_prefix : string) (w : World)
    (Hsettings : settings_registry = true →
                 ∀ cls, cls ∈ to_register "wagtail.contrib.settings" w →
                        is_Some (node_name "wagtail.contrib.settings" "{app}" cls))
    (Happs : ∀ a, a ∈ APPS settings → ∀ cls, cls ∈ to_register a w →
                  is_Some (node_name a (app_prefix settings a) cls)) :
  ∃ w', add_apps_with_settings settings_registry settings url_prefix w = (Ok tt, w')
        ∧ (∀ cls,
             registrations cls w'
             = (registrations cls w
                + (if settings_registry
                      && bool_decide (cls ∈ to_register "wagtail.contrib.settings" w)
                   then 1 else 0)
                + length (filter (λ a, cls ∈ to_register a w) (APPS settings)))%nat)
        ∧ (∀ cls, cls ∈ snippet_models w →
                  registrations cls w'
                  = (registrations cls w + (if settings_registry then 1 else 0)
                     + length (APPS settings))%nat).
Proof.
  assert (Hgeneral : ∃ w',
    add_apps_with_settings settings_registry settings url_prefix w = (Ok tt, w')
    ∧ ∀ cls,
        registrations cls w'
        = (registrations cls w
           + (if settings_registry
                 && bool_decide (cls ∈ to_register "wagtail.contrib.settings" w)
              then 1 else 0)
           + length (filter (λ a, cls ∈ to_register a w) (APPS settings)))%nat).
  { unfold add_apps_with_settings.
    change (for_each _ tt (APPS settings))
      with (for_each (λ _ app, add_app app (app_prefix settings app) url_prefix)
                     tt (APPS settings)).
    destruct settings_registry.
    - destruct (add_app_run "wagtail.contrib.settings" "{app}" "" w)
        as (w1 & Hrun1 & Hsn1 & Hct1 & _ & _ & Hcount1); [by apply Hsettings|].
      assert (Hlists : ∀ a, to_register a w1 = to_register a w)
        by (intros a; by apply to_register_ext).
      destruct (add_apps_loop settings url_prefix (APPS settings) w1)
        as (w' & Hrun & _ & _ & Hcount).
      { intros a Ha cls Hcls. rewrite Hlists in Hcls. by apply Happs. }
      exists w'. split.
      { unfold mbind, M_bind, bind, add_app_default. rewrite Hrun1. exact Hrun. }
      intros cls. rewrite Hcount, Hcount1.
      rewrite (list_filter_iff (λ a0, cls ∈ to_register a0 w1)
                               (λ a0, cls ∈ to_register a0 w)).
      2: { intros a. by rewrite Hlists. }
      simpl. by destruct (decide _); [rewrite bool_decide_eq_true_2|
                                     rewrite bool_decide_eq_false_2].
    - destruct (add_apps_loop settings url_prefix (APPS settings) w Happs)
        as (w' & Hrun & _ & _ & Hcount).
      exists w'. split; [exact Hrun|]. intros cls. rewrite Hcount. simpl. lia. }
  destruct Hgeneral as (w' & Hrun & Hcount).
  exists w'. split; [exact Hrun|]. split; [exact Hcount|].
  intros cls Hcls. rewrite Hcount.
  rewrite bool_decide_eq_true_2 by by apply snippet_in_to_register.
  rewrite andb_true_r. f_equal.
  assert (Hall : ∀ apps : list string,
             filter (λ a, cls ∈ to_register a w) apps = apps).
  { intros apps. induction apps as [|a apps IH]; [done|].
    rewrite filter_cons, decide_True by by apply snippet_in_to_register.
    by rewrite IH. }
  by rewrite Hall.
Qed.

End RegistryLookups.

(** * The sample site *)

#[local] Existing Instance ascii_externals.

(** Decides a closed decidable proposition by evaluation. *)
Ltac by_evaluation := apply (bool_decide_unpack _); vm_compute; exact I.

(** Evaluates the result of a run that leaves the world as it is, by the
    lemma that says so. *)
Ltac evaluate_query unchanged :=
  apply pair_split; [vm_compute; reflexivity | exact (unchanged _ _ _)].

Lemma sample_templates_fill :
  ∀ cls, cls ∈ to_register "blog" sample_world → is_Some (node_name "blog" "{app}" cls).
Proof. apply (proj1 (Forall_forall _ _)). by_evaluation. Defined.

Lemma sample_add_app :
  add_app "blog" "{app}" "/home/" sample_world = (Ok tt, registered_world).
Proof. apply pair_split; [vm_compute; reflexivity|reflexivity]. Qed.

(** The driver's list holds [Tag] twice. *)
Example sample_to_register :
  to_register "blog" sample_world
  = [Tag; BlogPage; ContactForm; SocialLinks; Author; Tag].
Proof. reflexivity. Qed.

Example sample_synthesized :
  tp_name <$> synthesized registered_world
  = ["BlogTag"; "BlogBlogPage"; "BlogContactForm"; "BlogContactFormMutation";
     "BlogSocialLinks"; "BlogAuthor"].
Proof. vm_compute. reflexivity. Qed.

Lemma resolve_type_round_trip_witness :
  (∀ cls, cls ∈ to_register "blog" sample_world → is_Some (node_name "blog" "{app}" cls))
  ∧ ∃ w', add_app "blog" "{app}" "/home/" sample_world = (Ok tt, w')
          ∧ ∀ cls pfx,
              cls ∈ to_register "blog" sample_world →
              str_format "{app}" (capwords "blog" None) (cls_name cls) = Some pfx →
              let k := classify (bool_decide (cls ∈ snippet_models sample_world)) cls in
              k = FormKind ∨ k = PageKind →
              let T := node_type k cls (pfx +:+ cls_name cls) "blog" pfx in
              pages (registry w') !! cls = Some T
              ∧ T ∈ synthesized w'
              ∧ ∀ p, model_class (content_type p) = Some cls →
                     resolve_type (Loaded p) w' = (Ok T, w').
Proof.
  split; [exact sample_templates_fill|].
  exact (resolve_type_round_trip "blog" "{app}" "/home/" sample_world sample_templates_fill).
Defined.

(** On the sample site, the loaded about page resolves to the type
    [BlogBlogPage]. *)
Example sample_resolve_type :
  resolve_type (Loaded about_page) registered_world
  = (Ok (node_type PageKind BlogPage "BlogBlogPage" "blog" "Blog"), registered_world).
Proof.
  apply pair_split; [vm_compute; reflexivity | exact (resolve_type_world _ _)].
Qed.

Lemma sample_tag_shares_no_name :
  ∀ x, x ∈ to_register "blog" sample_world → x ≠ Tag →
       node_name "blog" "{app}" x ≠ Some ("Blog" +:+ cls_name Tag)
       ∧ capfirst (verbose_name x) ≠ capfirst (verbose_name Tag).
Proof.
  assert (Hall : Forall (λ x, x ≠ Tag →
            node_name "blog" "{app}" x ≠ Some ("Blog" +:+ cls_name Tag)
            ∧ capfirst (verbose_name x) ≠ capfirst (verbose_name Tag))
            (to_register "blog" sample_world))
    by by_evaluation.
  exact (proj1 (Forall_forall _ _) Hall).
Defined.

Lemma add_app_registers_once_witness :
  (∀ cls, cls ∈ to_register "blog" sample_world → is_Some (node_name "blog" "{app}" cls))
  ∧ length (filter (λ cls, cls = Tag) (to_register "blog" sample_world)) = 2%nat
  ∧ ∃ w', add_app "blog" "{app}" "/home/" sample_world = (Ok tt, w')
          ∧ registrations Tag w' = S (registrations Tag sample_world)
          ∧ filter (λ tp, tp_model tp = Some Tag) (synthesized w')
            = [node_type Snippet Tag "BlogTag" "blog" "Blog"]
          ∧ snippets (registry w') !! Tag
            = Some (node_type Snippet Tag "BlogTag" "blog" "Blog")
          ∧ snippets_by_name (registry w') !! "BlogTag"
            = Some (node_type Snippet Tag "BlogTag" "blog" "Blog").
Proof.
  split; [exact sample_templates_fill|]. split; [reflexivity|].
  destruct (add_app_registers_once "blog" "{app}" "/home/" sample_world
              sample_templates_fill) as (w' & Hrun & Honce & _ & Hentries & _).
  assert (HTag : Tag ∈ to_register "blog" sample_world) by by_evaluation.
  assert (Hpfx : str_format "{app}" (capwords "blog" None) (cls_name Tag) = Some "Blog")
    by (vm_compute; reflexivity).
  pose proof (Hentries Tag "Blog" HTag Hpfx) as HE. cbv zeta in HE.
  change (classify (bool_decide (Tag ∈ snippet_models sample_world)) Tag)
    with Snippet in HE.
  destruct HE as (Hsyn & Hkept & Hall).
  exists w'. split; [exact Hrun|]. split; [by apply Honce|].
  split; [exact Hsyn|]. split; [exact Hkept|].
  exact (proj2 (Hall sample_tag_shares_no_name)).
Defined.

(** C2 as stated fails on a form: after the run, [ContactForm] is in both
    [pages] and [forms], not in exactly one bucket. *)
Lemma form_in_two_buckets :
  ContactForm ∈ to_register "blog" sample_world
  ∧ add_app "blog" "{app}" "/home/" sample_world = (Ok tt, registered_world)
  ∧ classify (bool_decide (ContactForm ∈ snippet_models sample_world)) ContactForm
    = FormKind
  ∧ buckets_holding (registry registered_world) "blog" "{app}" ContactForm
    = [Pages; Forms]
  ∧ length (buckets_holding (registry registered_world) "blog" "{app}" ContactForm) ≠ 1%nat.
Proof.
  split; [by_evaluation|]. split; [exact sample_add_app|].
  split; [reflexivity|].
  assert (Hboth : buckets_holding (registry registered_world) "blog" "{app}" ContactForm
                  = [Pages; Forms]) by (vm_compute; reflexivity).
  split; [exact Hboth|]. rewrite Hboth. discriminate.
Qed.

Lemma sample_node_names_distinct :
  ∀ c1 c2, c1 ∈ to_register "blog" sample_world → c2 ∈ to_register "blog" sample_world →
           node_name "blog" "{app}" c1 = node_name "blog" "{app}" c2 → c1 = c2.
Proof.
  assert (Hall : Forall (λ c1, Forall (λ c2,
            node_name "blog" "{app}" c1 = node_name "blog" "{app}" c2 → c1 = c2)
            (to_register "blog" sample_world)) (to_register "blog" sample_world))
    by by_evaluation.
  intros c1 c2 H1 H2.
  exact (proj1 (Forall_forall _ _) (proj1 (Forall_forall _ _) Hall c1 H1) c2 H2).
Defined.

Lemma sample_display_names_distinct :
  ∀ c1 c2, c1 ∈ to_register "blog" sample_world → c2 ∈ to_register "blog" sample_world →
           capfirst (verbose_name c1) = capfirst (verbose_name c2) → c1 = c2.
Proof.
  assert (Hall : Forall (λ c1, Forall (λ c2,
            capfirst (verbose_name c1) = capfirst (verbose_name c2) → c1 = c2)
            (to_register "blog" sample_world)) (to_register "blog" sample_world))
    by by_evaluation.
  intros c1 c2 H1 H2.
  exact (proj1 (Forall_forall _ _) (proj1 (Forall_forall _ _) Hall c1 H1) c2 H2).
Defined.

(** The pass over the app [shop] that follows the pass over [blog] on the
    sample site meets the snippet [Tag] again, which [snippets] holds by
    then. *)
Lemma shop_templates_fill :
  ∀ cls, cls ∈ to_register "shop" registered_world →
         is_Some (node_name "shop" "Store" cls).
Proof. apply (proj1 (Forall_forall _ _)). by_evaluation. Defined.

Lemma shop_registry_within :
  ∀ cls b, cls ∈ to_register "shop" registered_world →
           b ∈ buckets_holding (registry registered_world) "shop" "Store" cls →
           b ∈ expected_buckets
                 (classify (bool_decide (cls ∈ snippet_models registered_world)) cls).
Proof.
  assert (Hall : Forall (λ cls, Forall (λ b,
            b ∈ expected_buckets
                  (classify (bool_decide (cls ∈ snippet_models registered_world)) cls))
            (buckets_holding (registry registered_world) "shop" "Store" cls))
            (to_register "shop" registered_world))
    by by_evaluation.
  intros cls b Hcls Hb.
  exact (proj1 (Forall_forall _ _) (proj1 (Forall_forall _ _) Hall cls Hcls) b Hb).
Defined.

Lemma shop_node_names_compatible :
  ∀ c1 c2, c1 ∈ to_register "shop" registered_world →
           c2 ∈ to_register "shop" registered_world →
           node_name "shop" "Store" c1 = node_name "shop" "Store" c2 →
           classify (bool_decide (c1 ∈ snippet_models registered_world)) c1 = FormKind
           ∨ classify (bool_decide (c1 ∈ snippet_models registered_world)) c1
             = GenericRecord →
           classify (bool_decide (c2 ∈ snippet_models registered_world)) c2
           = classify (bool_decide (c1 ∈ snippet_models registered_world)) c1.
Proof.
  assert (Hall : Forall (λ c1, Forall (λ c2,
            node_name "shop" "Store" c1 = node_name "shop" "Store" c2 →
            classify (bool_decide (c1 ∈ snippet_models registered_world)) c1 = FormKind
            ∨ classify (bool_decide (c1 ∈ snippet_models registered_world)) c1
              = GenericRecord →
            classify (bool_decide (c2 ∈ snippet_models registered_world)) c2
            = classify (bool_decide (c1 ∈ snippet_models registered_world)) c1)
            (to_register "shop" registered_world)) (to_register "shop" registered_world))
    by by_evaluation.
  intros c1 c2 H1 H2.
  exact (proj1 (Forall_forall _ _) (proj1 (Forall_forall _ _) Hall c1 H1) c2 H2).
Defined.

Lemma shop_display_names_compatible :
  ∀ c1 c2, c1 ∈ to_register "shop" registered_world →
           c2 ∈ to_register "shop" registered_world →
           classify (bool_decide (c1 ∈ snippet_models registered_world)) c1 = SettingKind →
           classify (bool_decide (c2 ∈ snippet_models registered_world)) c2 = SettingKind →
           capfirst (verbose_name c1) = capfirst (verbose_name c2) → c1 = c2.
Proof.
  assert (Hall : Forall (λ c1, Forall (λ c2,
            classify (bool_decide (c1 ∈ snippet_models registered_world)) c1
            = SettingKind →
            classify (bool_decide (c2 ∈ snippet_models registered_world)) c2
            = SettingKind →
            capfirst (verbose_name c1) = capfirst (verbose_name c2) → c1 = c2)
            (to_register "shop" registered_world)) (to_register "shop" registered_world))
    by by_evaluation.
  intros c1 c2 H1 H2.
  exact (proj1 (Forall_forall _ _) (proj1 (Forall_forall _ _) Hall c1 H1) c2 H2).
Defined.

Lemma buckets_follow_classification_witness :
  (∀ cls, cls ∈ to_register "shop" registered_world →
          is_Some (node_name "shop" "Store" cls))
  ∧ (∀ cls b, cls ∈ to_register "shop" registered_world →
              b ∈ buckets_holding (registry registered_world) "shop" "Store" cls →
              b ∈ expected_buckets
                    (classify (bool_decide (cls ∈ snippet_models registered_world)) cls))
  ∧ (∀ c1 c2, c1 ∈ to_register "shop" registered_world →
              c2 ∈ to_register "shop" registered_world →
              node_name "shop" "Store" c1 = node_name "shop" "Store" c2 →
              classify (bool_decide (c1 ∈ snippet_models registered_world)) c1 = FormKind
              ∨ classify (bool_decide (c1 ∈ snippet_models registered_world)) c1
                = GenericRecord →
              classify (bool_decide (c2 ∈ snippet_models registered_world)) c2
              = classify (bool_decide (c1 ∈ snippet_models registered_world)) c1)
  ∧ (∀ c1 c2, c1 ∈ to_register "shop" registered_world →
              c2 ∈ to_register "shop" registered_world →
              classify (bool_decide (c1 ∈ snippet_models registered_world)) c1
              = SettingKind →
              classify (bool_decide (c2 ∈ snippet_models registered_world)) c2
              = SettingKind →
              capfirst (verbose_name c1) = capfirst (verbose_name c2) → c1 = c2)
  ∧ to_register "shop" registered_world = [Tag; Product]
  ∧ buckets_holding (registry registered_world) "shop" "Store" Tag = [Snippets]
  ∧ ∃ w', add_app "shop" "Store" "/home/" registered_world = (Ok tt, w')
          ∧ buckets_holding (registry w') "shop" "Store" Tag = [Snippets]
          ∧ buckets_holding (registry w') "shop" "Store" Product = [GenericRecords].
Proof.
  split; [exact shop_templates_fill|]. split; [exact shop_registry_within|].
  split; [exact shop_node_names_compatible|].
  split; [exact shop_display_names_compatible|].
  split; [vm_compute; reflexivity|]. split; [vm_compute; reflexivity|].
  destruct (buckets_follow_classification "shop" "Store" "/home/" registered_world
              shop_templates_fill shop_registry_within
              shop_node_names_compatible shop_display_names_compatible)
    as (w' & Hrun & Hbuckets).
  assert (Hsnippet : Tag ∈ to_register "shop" registered_world) by by_evaluation.
  assert (Hrecord : Product ∈ to_register "shop" registered_world) by by_evaluation.
  assert (HkTag : classify (bool_decide (Tag ∈ snippet_models registered_world)) Tag
                  = Snippet) by (vm_compute; reflexivity).
  assert (HkProduct :
            classify (bool_decide (Product ∈ snippet_models registered_world)) Product
            = GenericRecord) by (vm_compute; reflexivity).
  pose proof (proj1 (Hbuckets Tag Hsnippet)) as HTag.
  pose proof (proj1 (Hbuckets Product Hrecord)) as HProduct.
  rewrite HkTag in HTag. rewrite HkProduct in HProduct.
  exists w'. split; [exact Hrun|]. split; [exact HTag | exact HProduct].
Defined.

(** Two settings that share a display name: the later one overwrites the
    entry of the earlier one, which is then in no bucket. *)
Example display_name_collision_overwrites :
  (add_app "blog" "{app}" "" colliding_world).1 = Ok tt
  ∧ buckets_holding (registry (add_app "blog" "{app}" "" colliding_world).2)
                    "blog" "{app}" SocialLinks = []
  ∧ buckets_holding (registry (add_app "blog" "{app}" "" colliding_world).2)
                    "blog" "{app}" FooterLinks = [SettingsBucket].
Proof. repeat split; vm_compute; reflexivity. Qed.

(** C3 as stated fails when both arguments are supplied: the call is
    answered by [id], it does not raise. *)
Lemma page_with_id_and_url_returns :
  resolve_page sample_info (Some 3%Z) (Some "contact") registered_world
  = (Ok (Some about_page), registered_world)
  ∧ ∀ e w', resolve_page sample_info (Some 3%Z) (Some "contact") registered_world
            ≠ (Raise e, w').
Proof.
  assert (Hrun : resolve_page sample_info (Some 3%Z) (Some "contact") registered_world
                 = (Ok (Some about_page), registered_world))
    by evaluate_query (resolve_page_world sample_info).
  split; [exact Hrun|]. intros e w'. rewrite Hrun. discriminate.
Qed.

(** C4 as stated fails on the leading slash: with [about_page] stored under
    [<URL_PREFIX>about/], [url="about"] finds it while [url="/about/"]
    looks up another path and finds nothing. *)
Lemma page_url_leading_slash_kept :
  url_path about_page = URL_PREFIX +:+ "about/"
  ∧ lookup_path URL_PREFIX "about" = "/home/about/"
  ∧ lookup_path URL_PREFIX "/about/" = "/home//about/"
  ∧ lookup_path URL_PREFIX "/about/" ≠ lookup_path URL_PREFIX "about"
  ∧ resolve_page sample_info None (Some "about") registered_world
    = (Ok (Some about_page), registered_world)
  ∧ resolve_page sample_info None (Some "/about/") registered_world
    = (Ok None, registered_world).
Proof.
  split; [reflexivity|]. split; [reflexivity|]. split; [reflexivity|].
  split; [discriminate|]. split; evaluate_query (resolve_page_world sample_info).
Qed.

(** C5 as stated fails on a grandchild: [team_page] is a live, permitted
    descendant of [home_page], and [pages(parent=2)] does not return it. *)
Lemma pages_parent_omits_grandchild :
  ∃ q, resolve_pages sample_info (Some 2%Z) registered_world = (Ok q, registered_world)
       ∧ rows q = [about_page; contact_page]
       ∧ team_page ∈ page_table registered_world
       ∧ descendant_of_q home_page false team_page = true
       ∧ live team_page = true
       ∧ page_permitted (context sample_info) team_page = true
       ∧ team_page ∉ rows q.
Proof.
  exists {| rows := [about_page; contact_page]; related := ["blogpage"] |}.
  split; [evaluate_query resolve_pages_world|]. split; [reflexivity|].
  split; [by_evaluation|]. split; [reflexivity|]. split; [reflexivity|].
  split; [reflexivity|]. by_evaluation.
Qed.

Lemma pages_parent_lists_children_witness :
  first (qs_filter (λ p, (page_id p =? 2)%Z) (objects registered_world)) = Some home_page
  ∧ ∃ q, resolve_pages sample_info (Some 2%Z) registered_world = (Ok q, registered_world)
         ∧ (∀ r, r ∈ rows q ↔
                 r ∈ page_table registered_world ∧ child_of_q home_page r = true
                 ∧ page_permitted (context sample_info) r = true ∧ live r = true)
         ∧ (∀ r, r ∈ rows q →
                 descendant_of_q home_page false r = true
                 ∧ depth r = (depth home_page + 1)%Z).
Proof.
  assert (Hparent : first (qs_filter (λ p, (page_id p =? 2)%Z) (objects registered_world))
                    = Some home_page) by (vm_compute; reflexivity).
  split; [exact Hparent|].
  exact (pages_parent_lists_children sample_info 2%Z home_page registered_world Hparent).
Defined.

Lemma pages_parent_not_found_witness :
  (∀ p, p ∈ page_table registered_world → page_id p ≠ 7%Z)
  ∧ resolve_pages sample_info (Some 7%Z) registered_world
    = (Raise (ValueError "Page id=7 not found."), registered_world)
  ∧ resolve_page sample_info (Some 7%Z) None registered_world = (Ok None, registered_world).
Proof.
  assert (Hnone : ∀ p, p ∈ page_table registered_world → page_id p ≠ 7%Z).
  { apply (proj1 (Forall_forall _ _)). by_evaluation. }
  split; [exact Hnone|].
  destruct (pages_parent_not_found sample_info 7%Z registered_world Hnone)
    as (Hpages & Hpage & _).
  split; [exact Hpages|exact Hpage].
Defined.

Lemma form_mutation_outcomes_witness :
  first (qs_live (with_page_permissions (context sample_info)
           (specific (qs_filter
              (λ p, bool_decide (url_path p = lookup_path "/home/" "contact"))
              (objects registered_world))))) = Some contact_page
  ∧ get_form contact_page (GenericValue "") (user (context sample_info)) = Some invalid_form
  ∧ forms (registry registered_world) !! "BlogContactForm"
    = Some (mutation_type "BlogContactForm" "/home/")
  ∧ ∃ payload,
      mutate "BlogContactForm" "/home/" sample_info "contact" (GenericValue "")
             registered_world
      = (Ok payload, registered_world)
      ∧ result payload = "FAIL"
      ∧ reported_errors payload
        = [ {| error_name := "email"; error_messages := ["Invalid"] |} ].
Proof.
  assert (Hinstance :
    first (qs_live (with_page_permissions (context sample_info)
             (specific (qs_filter
                (λ p, bool_decide (url_path p = lookup_path "/home/" "contact"))
                (objects registered_world))))) = Some contact_page)
    by (vm_compute; reflexivity).
  assert (Hform : get_form contact_page (GenericValue "") (user (context sample_info))
                  = Some invalid_form) by reflexivity.
  assert (Htp : forms (registry registered_world) !! "BlogContactForm"
                = Some (mutation_type "BlogContactForm" "/home/"))
    by (vm_compute; reflexivity).
  split; [exact Hinstance|]. split; [exact Hform|]. split; [exact Htp|].
  destruct (proj2 (form_mutation_outcomes "BlogContactForm" "/home/" sample_info "contact"
                     (GenericValue "") registered_world contact_page invalid_form
                     (mutation_type "BlogContactForm" "/home/") Hinstance Hform Htp)
                  eq_refl)
    as (payload & Hrun & _ & Hresult & Herrors & _).
  exists payload. split; [exact Hrun|]. split; [exact Hresult|exact Herrors].
Defined.

(** A valid submission on the sample site is stored and answered ["OK"]. *)
Example sample_valid_submission :
  mutate "BlogContactForm" "/home/" sample_info "contact/" (GenericValue "hello")
         registered_world
  = (Ok {| payload_type := mutation_type "BlogContactForm" "/home/";
           result := "OK"; result_errors := None |},
     set_form_submissions
       (λ l, l ++ [(contact_page, {| is_valid := true; errors := [] |})])
       registered_world).
Proof.
  refine (mutate_found "BlogContactForm" "/home/" sample_info "contact/"
            (GenericValue "hello") registered_world contact_page
            {| is_valid := true; errors := [] |}
            (mutation_type "BlogContactForm" "/home/") _ _ _);
    vm_compute; reflexivity.
Qed.

Lemma pages_prefetch_selected_witness :
  ∃ q, resolve_pages sample_info None registered_world = (Ok q, registered_world)
       ∧ related q
         = elements (page_prefetch_fields (registry registered_world)
                     ∩ selection_names sample_info)
       ∧ related q = ["blogpage"].
Proof.
  pose (q := match (resolve_pages sample_info None registered_world).1 with
             | Ok q => q
             | Raise _ => objects registered_world
             end).
  assert (Hrun : resolve_pages sample_info None registered_world = (Ok q, registered_world))
    by evaluate_query resolve_pages_world.
  exists q. split; [exact Hrun|]. split.
  - exact (proj1 (pages_prefetch_selected sample_info None registered_world
                    registered_world q Hrun)).
  - vm_compute. reflexivity.
Defined.

(** ** Sample runs of the further properties *)

Lemma page_result_sound_and_complete_witness :
  ((None : option Z) ≠ None ∨ Some "contact" ≠ None)
  ∧ ∃ answer,
      resolve_page sample_info None (Some "contact") registered_world
      = (Ok answer, registered_world)
      ∧ ∀ page, answer = Some page →
                page ∈ page_table registered_world ∧ live page = true
                ∧ page_permitted (context sample_info) page = true
                ∧ url_path page = lookup_path URL_PREFIX "contact".
Proof.
  assert (Hargs : (None : option Z) ≠ None ∨ Some "contact" ≠ None) by (right; discriminate).
  split; [exact Hargs|].
  destruct (page_result_sound_and_complete sample_info None (Some "contact")
              registered_world Hargs) as (answer & Hrun & Hsound & _).
  exists answer. split; [exact Hrun|exact Hsound].
Defined.

Lemma url_path_round_trip_witness :
  url_path about_page = URL_PREFIX +:+ "about" +:+ "/"
  ∧ rstrip slash "about" = "about"
  ∧ resolve_url_path about_page = "about"
  ∧ lookup_path URL_PREFIX (resolve_url_path about_page) = url_path about_page.
Proof.
  split; [reflexivity|]. split; [reflexivity|].
  exact (url_path_round_trip about_page "about" eq_refl eq_refl).
Defined.

Lemma url_path_outside_prefix_no_round_trip_witness :
  URL_PREFIX ≠ EmptyString
  ∧ String.prefix URL_PREFIX (url_path archive_page) = false
  ∧ url_path archive_page = "/archive/2019" +:+ "/"
  ∧ rstrip slash "/archive/2019" = "/archive/2019"
  ∧ lookup_path URL_PREFIX (resolve_url_path archive_page)
    = URL_PREFIX +:+ url_path archive_page
  ∧ lookup_path URL_PREFIX (resolve_url_path archive_page) ≠ url_path archive_page.
Proof.
  assert (Hprefix : URL_PREFIX ≠ EmptyString) by discriminate.
  split; [exact Hprefix|]. split; [reflexivity|]. split; [reflexivity|].
  split; [reflexivity|].
  exact (url_path_outside_prefix_no_round_trip archive_page "/archive/2019"
           Hprefix eq_refl eq_refl eq_refl).
Defined.

Lemma pages_listing_witness :
  ∃ q, resolve_pages sample_info None registered_world = (Ok q, registered_world)
       ∧ Sorted path_le (rows q)
       ∧ ∀ r, r ∈ rows q ↔
              r ∈ page_table registered_world ∧ live r = true
              ∧ page_permitted (context sample_info) r = true.
Proof.
  pose (q := match (resolve_pages sample_info None registered_world).1 with
             | Ok q => q
             | Raise _ => objects registered_world
             end).
  assert (Hrun : resolve_pages sample_info None registered_world = (Ok q, registered_world))
    by evaluate_query resolve_pages_world.
  destruct (pages_listing sample_info None registered_world registered_world q Hrun)
    as (_ & Hsorted & _ & Hexact).
  exists q. split; [exact Hrun|]. split; [exact Hsorted|exact (Hexact eq_refl)].
Defined.

Lemma form_mutation_without_form_page_witness :
  match first (qs_live (with_page_permissions (context sample_info)
                 (specific (qs_filter
                    (λ p, bool_decide (url_path p = lookup_path "/home/" "about"))
                    (objects registered_world))))) with
  | Some instance => get_form instance (GenericValue "hello") (user (context sample_info)) = None
  | None => True
  end
  ∧ mutate "BlogContactForm" "/home/" sample_info "about" (GenericValue "hello")
           registered_world
    = (Raise AttributeError, registered_world).
Proof.
  assert (Hnoform :
    match first (qs_live (with_page_permissions (context sample_info)
                   (specific (qs_filter
                      (λ p, bool_decide (url_path p = lookup_path "/home/" "about"))
                      (objects registered_world))))) with
    | Some instance =>
        get_form instance (GenericValue "hello") (user (context sample_info)) = None
    | None => True
    end) by (vm_compute; reflexivity).
  split; [exact Hnoform|].
  exact (@form_mutation_without_form_page ascii_externals "BlogContactForm" "/home/"
           sample_info "about" (GenericValue "hello") registered_world Hnoform).
Defined.

Lemma form_mutation_unregistered_node_witness :
  first (qs_live (with_page_permissions (context sample_info)
           (specific (qs_filter
              (λ p, bool_decide (url_path p = lookup_path "/home/" "contact"))
              (objects registered_world))))) = Some contact_page
  ∧ get_form contact_page (GenericValue "hello") (user (context sample_info))
    = Some {| is_valid := true; errors := [] |}
  ∧ forms (registry registered_world) !! "ShopContactForm" = None
  ∧ mutate "ShopContactForm" "/home/" sample_info "contact" (GenericValue "hello")
           registered_world
    = (Raise KeyError,
       set_form_submissions
         (λ l, l ++ [(contact_page, {| is_valid := true; errors := [] |})])
         registered_world).
Proof.
  assert (Hinstance :
    first (qs_live (with_page_permissions (context sample_info)
             (specific (qs_filter
                (λ p, bool_decide (url_path p = lookup_path "/home/" "contact"))
                (objects registered_world))))) = Some contact_page)
    by (vm_compute; reflexivity).
  assert (Hform : get_form contact_page (GenericValue "hello") (user (context sample_info))
                  = Some {| is_valid := true; errors := [] |}) by reflexivity.
  assert (Hmissing : forms (registry registered_world) !! "ShopContactForm" = None)
    by (vm_compute; reflexivity).
  split; [exact Hinstance|]. split; [exact Hform|]. split; [exact Hmissing|].
  exact (form_mutation_unregistered_node "ShopContactForm" "/home/" sample_info "contact"
           (GenericValue "hello") registered_world contact_page
           {| is_valid := true; errors := [] |} Hinstance Hform Hmissing).
Defined.

Lemma add_app_twice_registers_twice_witness :
  (∀ cls, cls ∈ to_register "blog" sample_world → is_Some (node_name "blog" "{app}" cls))
  ∧ ∃ w1 w2,
      add_app "blog" "{app}" "/home/" sample_world = (Ok tt, w1)
      ∧ add_app "blog" "{app}" "/home/" w1 = (Ok tt, w2)
      ∧ registrations BlogPage w2 = S (S (registrations BlogPage sample_world)).
Proof.
  split; [exact sample_templates_fill|].
  destruct (add_app_twice_registers_twice "blog" "{app}" "/home/" sample_world
              sample_templates_fill) as (w1 & w2 & Hrun1 & Hrun2 & _ & Hcount).
  exists w1, w2. split; [exact Hrun1|]. split; [exact Hrun2|].
  apply Hcount. by_evaluation.
Defined.

Lemma add_app_template_error_witness :
  to_register "blog" form_first_world = [ContactForm] ++ BlogPage :: [Author]
  ∧ (∀ c, c ∈ [ContactForm] →
          is_Some (@node_name indexing_externals "blog" "{cls[8]}" c))
  ∧ @node_name indexing_externals "blog" "{cls[8]}" BlogPage = None
  ∧ ∃ w', @add_app indexing_externals "blog" "{cls[8]}" "" form_first_world
          = (Raise FormatError, w')
          ∧ registrations ContactForm w' = 1%nat
          ∧ registrations BlogPage w' = 0%nat
          ∧ registrations Author w' = 0%nat.
Proof.
  assert (Hbefore : ∀ c, c ∈ [ContactForm] →
                         is_Some (@node_name indexing_externals "blog" "{cls[8]}" c)).
  { apply (proj1 (Forall_forall _ _)). by_evaluation. }
  split; [reflexivity|]. split; [exact Hbefore|]. split; [reflexivity|].
  destruct (@add_app_template_error indexing_externals "blog" "{cls[8]}" ""
              form_first_world [ContactForm] [Author] BlogPage eq_refl Hbefore eq_refl)
    as (w' & Hrun & Hcount).
  exists w'. split; [exact Hrun|].
  split; [|split]; rewrite Hcount; reflexivity.
Defined.

Lemma sample_snippet_page_templates_fill :
  ∀ cls, cls ∈ to_register "blog" snippet_page_world →
         is_Some (node_name "blog" "{app}" cls).
Proof. apply (proj1 (Forall_forall _ _)). by_evaluation. Defined.

Lemma add_app_leaves_other_pages_witness :
  (∀ cls, cls ∈ to_register "blog" snippet_page_world →
          is_Some (node_name "blog" "{app}" cls))
  ∧ BlogPage ∈ to_register "blog" snippet_page_world
  ∧ sub_wagtailPage BlogPage = true
  ∧ ∃ w', add_app "blog" "{app}" "/home/" snippet_page_world = (Ok tt, w')
          ∧ pages (registry w') !! BlogPage = None
          ∧ resolve_type (Loaded home_page) w' = (Raise KeyError, w').
Proof.
  split; [exact sample_snippet_page_templates_fill|].
  split; [by_evaluation|]. split; [reflexivity|].
  destruct (add_app_leaves_other_pages "blog" "{app}" "/home/" snippet_page_world
              sample_snippet_page_templates_fill) as (w' & Hrun & Hother).
  destruct (Hother BlogPage) as [Hpages Hresolve].
  { right. split; discriminate. }
  exists w'. split; [exact Hrun|]. split; [exact Hpages|].
  apply Hresolve; reflexivity.
Defined.

Lemma add_app_prefetch_fields_witness :
  (∀ cls, cls ∈ to_register "blog" sample_world → is_Some (node_name "blog" "{app}" cls))
  ∧ ∃ w', add_app "blog" "{app}" "/home/" sample_world = (Ok tt, w')
          ∧ "blogpage" ∈ page_prefetch_fields (registry w')
          ∧ ("tag" ∉ page_prefetch_fields (registry w'))
          ∧ ∃ q, resolve_pages sample_info None w' = (Ok q, w')
                 ∧ "blogpage" ∈ related q.
Proof.
  split; [exact sample_templates_fill|].
  destruct (add_app_prefetch_fields "blog" "{app}" "/home/" sample_world
              sample_templates_fill) as (w' & Hrun & Hfields & Hjoin).
  assert (HBlogPage : BlogPage ∈ to_register "blog" sample_world) by by_evaluation.
  exists w'. split; [exact Hrun|]. split; [|split].
  - apply Hfields. right. exists BlogPage.
    split; [exact HBlogPage|]. split; [right; reflexivity|reflexivity].
  - intros Hin. apply Hfields in Hin as [Hin|(cls & Hcls & Hk & Hname)].
    + by apply not_elem_of_empty in Hin.
    + revert cls Hcls Hk Hname.
      apply (proj1 (Forall_forall
               (λ cls, (let k := classify (bool_decide (cls ∈ snippet_models sample_world))
                                          cls in
                        k = FormKind ∨ k = PageKind) →
                       "tag" = lower (cls_name cls) → False)
               (to_register "blog" sample_world))).
      repeat constructor; simpl; intros [Hk|Hk] Hname; discriminate.
  - apply (Hjoin sample_info BlogPage "blogpage" HBlogPage).
    + right. reflexivity.
    + do 2 apply list_elem_of_further. apply list_elem_of_here.
    + reflexivity.
Defined.

Lemma add_app_lookup_after_registration_witness :
  (∀ cls, cls ∈ to_register "blog" sample_world → is_Some (node_name "blog" "{app}" cls))
  ∧ (∀ c1 c2, c1 ∈ to_register "blog" sample_world → c2 ∈ to_register "blog" sample_world →
              node_name "blog" "{app}" c1 = node_name "blog" "{app}" c2 → c1 = c2)
  ∧ (∀ c1 c2, c1 ∈ to_register "blog" sample_world → c2 ∈ to_register "blog" sample_world →
              capfirst (verbose_name c1) = capfirst (verbose_name c2) → c1 = c2)
  ∧ ∃ w', add_app "blog" "{app}" "/home/" sample_world = (Ok tt, w')
          ∧ snippets (registry w') !! Tag = Some (node_type Snippet Tag "BlogTag" "blog" "Blog")
          ∧ snippets_by_name (registry w') !! "BlogTag"
            = Some (node_type Snippet Tag "BlogTag" "blog" "Blog")
          ∧ settings (registry w') !! "Social links" = Some SocialLinks
          ∧ django (registry w') !! "BlogAuthor"
            = Some (node_type GenericRecord Author "BlogAuthor" "blog" "Blog").
Proof.
  split; [exact sample_templates_fill|]. split; [exact sample_node_names_distinct|].
  split; [exact sample_display_names_distinct|].
  destruct (add_app_lookup_after_registration "blog" "{app}" "/home/" sample_world
              sample_templates_fill sample_node_names_distinct
              sample_display_names_distinct) as (w' & Hrun & Hentries).
  assert (HTag : Tag ∈ to_register "blog" sample_world) by by_evaluation.
  assert (HSocial : SocialLinks ∈ to_register "blog" sample_world) by by_evaluation.
  assert (HAuthor : Author ∈ to_register "blog" sample_world) by by_evaluation.
  exists w'. split; [exact Hrun|].
  split; [exact (proj1 (Hentries Tag "Blog" HTag eq_refl))|].
  split; [exact (proj2 (Hentries Tag "Blog" HTag eq_refl))|].
  split; [exact (Hentries SocialLinks "Blog" HSocial eq_refl)|].
  exact (Hentries Author "Blog" HAuthor eq_refl).
Defined.

Lemma add_app_registers_form_mutations_witness :
  (∀ cls, cls ∈ to_register "blog" sample_world → is_Some (node_name "blog" "{app}" cls))
  ∧ ∃ w', add_app "blog" "{app}" "/home/" sample_world = (Ok tt, w')
          ∧ forms (registry w') !! "BlogContactForm"
            = Some (mutation_type "BlogContactForm" "/home/").
Proof.
  split; [exact sample_templates_fill|].
  destruct (add_app_registers_form_mutations "blog" "{app}" "/home/" sample_world
              sample_templates_fill) as (w' & Hrun & Hforms).
  assert (Hform : ContactForm ∈ to_register "blog" sample_world) by by_evaluation.
  exists w'. split; [exact Hrun|].
  exact (proj1 (Hforms ContactForm "BlogContactForm" Hform eq_refl eq_refl)).
Defined.

Lemma add_apps_registers_per_app_witness :
  (true = true →
   ∀ cls, cls ∈ to_register "wagtail.contrib.settings" sample_world →
          is_Some (node_name "wagtail.contrib.settings" "{app}" cls))
  ∧ (∀ a, a ∈ APPS sample_settings → ∀ cls, cls ∈ to_register a sample_world →
          is_Some (node_name a (app_prefix sample_settings a) cls))
  ∧ ∃ w', add_apps_with_settings true sample_settings "/home/" sample_world = (Ok tt, w')
          ∧ registrations Tag w' = 3%nat
          ∧ registrations BlogPage w' = 1%nat
          ∧ registrations Product w' = 1%nat.
Proof.
  assert (Hsettings : true = true →
            ∀ cls, cls ∈ to_register "wagtail.contrib.settings" sample_world →
                   is_Some (node_name "wagtail.contrib.settings" "{app}" cls)).
  { intros _. apply (proj1 (Forall_forall _ _)). by_evaluation. }
  assert (Happs : ∀ a, a ∈ APPS sample_settings →
                       ∀ cls, cls ∈ to_register a sample_world →
                              is_Some (node_name a (app_prefix sample_settings a) cls)).
  { apply (proj1 (Forall_forall
             (λ a, ∀ cls, cls ∈ to_register a sample_world →
                          is_Some (node_name a (app_prefix sample_settings a) cls))
             (APPS sample_settings))).
    repeat constructor; apply (proj1 (Forall_forall _ _)); by_evaluation. }
  split; [exact Hsettings|]. split; [exact Happs|].
  destruct (add_apps_registers_per_app true sample_settings "/home/" sample_world
              Hsettings Happs) as (w' & Hrun & Hcount & _).
  exists w'. split; [exact Hrun|].
  split; [|split]; rewrite Hcount; vm_compute; reflexivity.
Defined.

(** On the sample site the menu lists the about page and the contact
    page, in path order. *)
Example sample_show_in_menus :
  (resolve_show_in_menus sample_info registered_world).1
  = Ok {| rows := [about_page; contact_page]; related := [] |}.
Proof. vm_compute. reflexivity. Qed.

(** The bare id of the about page resolves like the page itself. *)
Example sample_resolve_type_bare_id :
  resolve_type (BareId 3%Z) registered_world
  = resolve_type (Loaded about_page) registered_world.
Proof.
  transitivity (Ok (node_type PageKind BlogPage "BlogBlogPage" "blog" "Blog"),
                registered_world); [|symmetry];
    (apply pair_split; [vm_compute; reflexivity | exact (resolve_type_world _ _)]).
Qed.
